(** * morph_kgc.data_source.data_file: reading data files into tables

    A shallow embedding of [src/morph_kgc/data_source/data_file.py].

    The Python functions are translated one by one and keep their names.
    Exceptions are explicit ([result]); the calls into pandas are given by
    executable definitions of the operations the module uses
    ([from_records], [dropna], [explode], [json_normalize], column
    assignment); the path evaluators (elementpath, ElementTree, jsonpath),
    the file loaders and the flat-format readers of pandas and cudf are
    interfaces ([XmlEngine], [JsonEngine], [FlatLib]) with small concrete
    instances used to run the readers on example documents. *)

From Stdlib Require Import String Ascii List Bool Arith Lia Permutation.
Import ListNotations.

Local Open Scope list_scope.
Set Warnings "-register-all".

(** ** Python values, exceptions *)

Module Py.

(** A raised exception: the name of its class and its message. *)
Inductive exn : Type :=
| PyExn (cls : string) (msg : string).

Definition ValueError (msg : string) : exn := PyExn "ValueError" msg.
Definition KeyError (msg : string) : exn := PyExn "KeyError" msg.
Definition SyntaxError (msg : string) : exn := PyExn "SyntaxError" msg.
Definition AttributeError (msg : string) : exn := PyExn "AttributeError" msg.
Definition OSError (msg : string) : exn := PyExn "OSError" msg.

(** The outcome of a call: a value, or an exception that propagates
    (the module has no [try]). *)
Inductive result (A : Type) : Type :=
| Ok (a : A)
| Raise (e : exn).
Arguments Ok {A} a.
Arguments Raise {A} e.

Definition bind {A B : Type} (c : result A) (k : A -> result B) : result B :=
  match c with
  | Ok a => k a
  | Raise e => Raise e
  end.

Definition is_ok {A : Type} (c : result A) : bool :=
  match c with Ok _ => true | Raise _ => false end.

(** A comprehension [[f x for x in l]] whose body may raise: elements are
    evaluated left to right and the first exception ends the evaluation. *)
Fixpoint mapM {A B : Type} (f : A -> result B) (l : list A) : result (list B) :=
  match l with
  | [] => Ok []
  | x :: l' =>
      bind (f x) (fun y => bind (mapM f l') (fun ys => Ok (y :: ys)))
  end.

(** A [for] loop that rebinds one variable and whose body may raise. *)
Fixpoint foldM {A B : Type} (f : B -> A -> result B) (l : list A) (b : B) : result B :=
  match l with
  | [] => Ok b
  | x :: l' => bind (f b x) (foldM f l')
  end.

(** [s.split('.')[0]]: the part of [s] before its first dot. *)
Fixpoint split_dot_head (s : string) : string :=
  match s with
  | EmptyString => EmptyString
  | String c r => if Ascii.eqb c "."%char then EmptyString else String c (split_dot_head r)
  end.

(** [s[:-1]]: [s] without its last character. *)
Fixpoint drop_last (s : string) : string :=
  match s with
  | EmptyString => EmptyString
  | String c EmptyString => EmptyString
  | String c r => String c (drop_last r)
  end.

Definition mem (x : string) (l : list string) : bool := existsb (String.eqb x) l.

(** The Python objects the module handles: what [json.load] builds
    ([None], strings, numbers and booleans kept as their literals, lists,
    dictionaries in insertion order), and the missing value [np.nan]. *)
Inductive value : Type :=
| NaN
| PyNone
| Str (s : string)
| Num (lit : string)
| Boolean (b : bool)
| PyList (l : list value)
| PyDict (d : list (string * value)).

(** [d[k] = v] on a dictionary: a present key keeps its place. *)
Fixpoint dict_set (d : list (string * value)) (k : string) (v : value) : list (string * value) :=
  match d with
  | [] => [(k, v)]
  | (k', v') :: d' =>
      if String.eqb k' k then (k', v) :: d' else (k', v') :: dict_set d' k v
  end.

Fixpoint dict_get (d : list (string * value)) (k : string) : option value :=
  match d with
  | [] => None
  | (k', v') :: d' => if String.eqb k' k then Some v' else dict_get d' k
  end.

(** The order in which the running interpreter iterates over a set of
    strings: some arrangement of its elements.  It follows the hashes of
    the strings, which CPython salts anew in every interpreter process. *)
Record SetOrder : Type := mkSetOrder {
  arrange :> list string -> list string;
  arrange_perm : forall l, Permutation (arrange l) l
}.

(** [list(set(a).difference(set(b)))] *)
Definition set_difference (hash_order : SetOrder) (a b : list string) : list string :=
  hash_order (nodup string_dec (filter (fun x => negb (mem x b)) a)).

End Py.
Import Py.

Declare Scope py_scope.
Delimit Scope py_scope with py.
Notation "x <- c ;; k" := (bind c (fun x => k))
  (at level 61, c at next level, right associativity) : py_scope.
Local Open Scope py_scope.

(** ** The pandas operations the module calls *)

Module Pandas.

(** A cell of an object column holds any Python object. *)
Definition cell : Type := value.

(** [pandas.isna] on one cell.  A list, also an empty one, is not a missing
    value. *)
Definition isna (c : cell) : bool :=
  match c with
  | NaN | PyNone => true
  | _ => false
  end.

Definition is_str (c : cell) : bool :=
  match c with
  | Str _ => true
  | _ => false
  end.

(** A frame: column labels, and the rows in index order.  The row labels
    are left out, no operation of the module reads them. *)
Record DataFrame : Type := mkDF {
  columns : list string;
  rows : list (list cell)
}.

Definition empty_frame : DataFrame := mkDF [] [].

(** [pd.DataFrame.from_records(data, columns=cols)] on a list of rows.
    The rows of a frame are those of its column arrays, so without columns
    there are no rows. *)
Definition from_records (data : list (list cell)) (cols : list string) : result DataFrame :=
  if forallb (fun r => length r =? length cols) data then
    match cols with
    | [] => Ok empty_frame
    | _ => Ok (mkDF cols data)
    end
  else Raise (ValueError "columns passed do not match the data").

(** [df[key] = v] for one label: all cells of the column(s) called [key]
    become [v]; a new label is appended as the last column. *)
Fixpoint assign_row (cols : list string) (key : string) (v : cell) (row : list cell) : list cell :=
  match cols, row with
  | c :: cols', x :: row' =>
      (if String.eqb c key then v else x) :: assign_row cols' key v row'
  | _, _ => row
  end.

Definition setitem (df : DataFrame) (key : string) (v : value) : DataFrame :=
  if mem key (columns df) then
    mkDF (columns df) (map (assign_row (columns df) key v) (rows df))
  else
    mkDF (columns df ++ [key]) (map (fun r => r ++ [v]) (rows df)).

(** [df[keys] = v] for a list of labels: one assignment per label, in the
    order of the list. *)
Definition setitem_list (df : DataFrame) (keys : list string) (v : value) : DataFrame :=
  fold_left (fun d k => setitem d k v) keys df.

(** [df.dropna(axis=0, how='any', inplace=True)]. *)
Definition dropna (df : DataFrame) : DataFrame :=
  mkDF (columns df) (filter (fun r => negb (existsb isna r)) (rows df)).

Fixpoint index_of (key : string) (cols : list string) : option nat :=
  match cols with
  | [] => None
  | c :: cols' =>
      if String.eqb c key then Some 0
      else match index_of key cols' with
           | Some i => Some (S i)
           | None => None
           end
  end.

Fixpoint set_nth (i : nat) (v : cell) (row : list cell) : list cell :=
  match i, row with
  | _, [] => []
  | 0, _ :: row' => v :: row'
  | S i', x :: row' => x :: set_nth i' v row'
  end.

(** One row under [explode]: a list of [k > 0] values gives [k] copies of
    the row, the [j]-th one with the [j]-th value in place of the list; an
    empty list gives the row with [np.nan]; another cell leaves the row. *)
Definition explode_row (i : nat) (row : list cell) : list (list cell) :=
  match nth_error row i with
  | Some (PyList []) => [set_nth i NaN row]
  | Some (PyList l) => map (fun v => set_nth i v row) l
  | _ => [row]
  end.

Fixpoint unique (l : list string) : bool :=
  match l with
  | [] => true
  | x :: l' => negb (mem x l') && unique l'
  end.

(** [df.explode(column)]: refused on a frame whose column labels are not
    unique; the rows keep their order, the copies of a row stay together. *)
Definition explode (df : DataFrame) (column : string) : result DataFrame :=
  if unique (columns df) then
    match index_of column (columns df) with
    | Some i => Ok (mkDF (columns df) (flat_map (explode_row i) (rows df)))
    | None => Raise (KeyError column)
    end
  else Raise (ValueError "columns must be unique").

(** The cells of the column called [key], top to bottom ([None] when the
    frame has no such column). *)
Definition column_values (df : DataFrame) (key : string) : option (list (option cell)) :=
  match index_of key (columns df) with
  | Some i => Some (map (fun r => nth_error r i) (rows df))
  | None => None
  end.

End Pandas.
Import Pandas.

(** [cudf.from_pandas]: the same frame on the device; labels, rows and their
    order are those of the pandas frame. *)
Definition cudf_from_pandas (df : DataFrame) : DataFrame := df.

(** ** Mapping rules *)

(** The entries of a mapping rule that the module reads:
    [mapping_rule['source_type']], [mapping_rule['data_source']] and
    [mapping_rule['iterator']]. *)
Record MappingRule : Type := mkRule {
  source_type : string;
  data_source : string;
  iterator : string
}.

(** ** XML *)

(** What an XPath selection yields: element nodes, or atomic values and
    attribute or text nodes, which are not [Element] objects. *)
Inductive xitem (E : Type) : Type :=
| XElem (e : E)
| XAtom (s : string).
Arguments XElem {E} e.
Arguments XAtom {E} s.

(** The XML collaborators of [_read_xml]:
    - [ET_parse p] is [open(p, encoding='utf-8')] followed by
      [ET.parse(f).getroot()];
    - [iter_select root path] is [elementpath.iter_select] (XPath 2.0), run
      to its end by the comprehension that consumes it;
    - [findall e path] is [Element.findall];
    - [text e] is the attribute [Element.text]. *)
Class XmlEngine : Type := {
  element : Type;
  ET_parse : string -> result element;
  iter_select : element -> string -> result (list (xitem element));
  findall : element -> string -> result (list element);
  text : element -> option string
}.

Definition text_value (t : option string) : value :=
  match t with
  | Some s => Str s
  | None => PyNone
  end.

Section ReadXml.

Context {X : XmlEngine}.
Variable hash_order : SetOrder.

(** [[r.text for r in e.findall(reference)]] *)
Definition reference_texts (e : element) (reference : string) : result cell :=
  rs <- findall e reference ;;
  Ok (PyList (map (fun r => text_value (text r)) rs)).

(** [[... for reference in references]] for one selected item [e]; on an
    item that is not an element, [e.findall] is an [AttributeError]. *)
Definition record_texts (references : list string) (e : xitem element) : result (list cell) :=
  match e with
  | XElem e => mapM (reference_texts e) references
  | XAtom _ =>
      match references with
      | [] => Ok []
      | _ => Raise (AttributeError "'str' object has no attribute 'findall'")
      end
  end.

Definition _read_xml (mapping_rule : MappingRule) (references : list string) : result DataFrame :=
  xml_root <- ET_parse (data_source mapping_rule) ;;
  xpath_result <- iter_select xml_root (iterator mapping_rule) ;;
  xpath_result <- mapM (record_texts references) xpath_result ;;
  xml_df <- from_records xpath_result references ;;
  let missing_references_in_df := set_difference hash_order references (columns xml_df) in
  let xml_df := setitem_list xml_df missing_references_in_df NaN in
  let xml_df := dropna xml_df in
  xml_df <- foldM explode references xml_df ;;
  Ok (cudf_from_pandas xml_df).

End ReadXml.

(** ** JSON *)

(** The JSON collaborators of [_read_json]:
    - [json_load p] is [open(p, encoding='utf-8')] followed by [json.load];
    - [JSONPath_parse expr data] is [JSONPath(expr).parse(data)]. *)
Class JsonEngine : Type := {
  json_load : string -> result value;
  JSONPath_parse : string -> value -> result (list value)
}.

(** One step of the row expansion: the rows of [acc] receive the values
    [vs] of the field [k]. *)
Definition expand_field (acc : list (list (string * value))) (k : string) (vs : list value)
  : list (list (string * value)) :=
  match vs with
  | [] => map (fun r => dict_set r k PyNone) acc
  | _ => flat_map (fun r => map (fun v => dict_set r k v) vs) acc
  end.

(** Modelled from the spec: [normalize_hierarchical_data] of
    [morph_kgc/utils.py], which is not among the sources.  Records are
    taken in their order and their rows concatenated (TableBuilder).  One
    record is expanded by the sequential cross product of RowNormalizer:
    start with one empty accumulator row; for each field in turn, a single
    value is assigned to every row, a sequence of [k] values replicates each
    accumulator row [k] times, the [i]-th replica receiving the [i]-th
    value, and an absent value or a sequence without elements gives every
    row a null without multiplying.  A field that is itself an object is
    expanded in the same way. *)
Fixpoint normalize_hierarchical_data (data : value) : list value :=
  match data with
  | PyList l => flat_map normalize_hierarchical_data l
  | PyDict d =>
      map PyDict
        (fold_left (fun acc kvs => expand_field acc (fst kvs) (snd kvs))
           (map (fun kv => (fst kv, normalize_hierarchical_data (snd kv))) d)
           [[]])
  | leaf => [leaf]
  end.

(** [None not in json_object.values()]; [values] exists on dictionaries
    only. *)
Definition has_no_null (json_object : value) : result bool :=
  match json_object with
  | PyDict d =>
      Ok (negb (existsb (fun kv => match snd kv with PyNone => true | _ => false end) d))
  | _ => Raise (AttributeError "object has no attribute 'values'")
  end.

(** [[o for o in objects if None not in o.values()]] *)
Fixpoint remove_nulls (objects : list value) : result (list (list (string * value))) :=
  match objects with
  | [] => Ok []
  | o :: objects' =>
      keep <- has_no_null o ;;
      rest <- remove_nulls objects' ;;
      match o with
      | PyDict d => Ok (if keep then d :: rest else rest)
      | _ => Ok rest
      end
  end.

Module JsonNormalize.

(** The entries of a nested dictionary under the dotted names pandas gives
    them, depth first. *)
Fixpoint flatten (prefix : string) (v : value) : list (string * value) :=
  match v with
  | PyDict d =>
      flat_map (fun kv => flatten (prefix ++ "." ++ fst kv)%string (snd kv)) d
  | _ => [(prefix, v)]
  end.

Definition is_dict (v : value) : bool :=
  match v with PyDict _ => true | _ => false end.

(** One record as a flat dictionary: its top-level entries that are not
    dictionaries, then the flattened entries of those that are. *)
Definition flat_record (d : list (string * value)) : list (string * value) :=
  fold_left (fun acc kv => dict_set acc (fst kv) (snd kv))
    (flat_map (fun kv => if is_dict (snd kv) then flatten (fst kv) (snd kv) else []) d)
    (fold_left (fun acc kv => dict_set acc (fst kv) (snd kv))
       (filter (fun kv => negb (is_dict (snd kv))) d) []).

(** The labels of [DataFrame(records)]: the keys in the order of their
    first appearance. *)
Definition union_keys (records : list (list (string * value))) : list string :=
  fold_left (fun acc r =>
               fold_left (fun acc' kv => if mem (fst kv) acc' then acc' else acc' ++ [fst kv]) r acc)
    records [].

Definition record_row (cols : list string) (r : list (string * value)) : list cell :=
  map (fun c => match dict_get r c with Some v => v | None => NaN end) cols.

(** [pd.json_normalize(records)] on a list of dictionaries. *)
Definition json_normalize (records : list (list (string * value))) : DataFrame :=
  let flat := map flat_record records in
  let cols := union_keys flat in
  mkDF cols (map (record_row cols) flat).

End JsonNormalize.
Import JsonNormalize.

Section ReadJson.

Context {J : JsonEngine}.
Variable hash_order : SetOrder.

(** Lines 130-134: the iterator followed by the field extractor
    [.(k1,...,kn)] over the top-level names of the references. *)
Definition jsonpath_expression (mapping_rule : MappingRule) (references : list string) : string :=
  let e := (iterator mapping_rule ++ ".(")%string in
  let e := fold_left (fun e reference => (e ++ split_dot_head reference ++ ",")%string) references e in
  (drop_last e ++ ")")%string.

Definition _read_json (mapping_rule : MappingRule) (references : list string) : result DataFrame :=
  json_data <- json_load (data_source mapping_rule) ;;
  jsonpath_result <- JSONPath_parse (jsonpath_expression mapping_rule references) json_data ;;
  json_objects <- remove_nulls (normalize_hierarchical_data (PyList jsonpath_result)) ;;
  let json_df := json_normalize json_objects in
  let missing_references_in_df := set_difference hash_order references (columns json_df) in
  let json_df := setitem_list json_df missing_references_in_df NaN in
  Ok (cudf_from_pandas json_df).

End ReadJson.

(** ** Flat formats *)

(** The keyword arguments the module passes to a reader of text cells. *)
Record TextOptions : Type := mkTextOptions {
  usecols : list string;
  dtype_str : bool;          (* dtype=str *)
  keep_default_na : bool;
  na_filter : bool
}.

(** The readers of cudf and pandas, each with the arguments that vary in
    the module's calls; the source locator comes first.
    - [cudf_read_csv p delimiter o] has [index_col=False];
    - [pd_read_excel p engine o] has [sheet_name=0];
    - the readers of columnar files take [columns=];
    - [pd_read_stata p columns] has every conversion switched off;
    - [pd_read_sas p] has [encoding='utf-8'] and no other argument;
    - [pd_read_spss p usecols] has [convert_categoricals=False]. *)
Class FlatLib : Type := {
  cudf_read_csv : string -> string -> TextOptions -> result DataFrame;
  cudf_read_parquet : string -> list string -> result DataFrame;
  cudf_read_feather : string -> list string -> result DataFrame;
  cudf_read_orc : string -> list string -> result DataFrame;
  pd_read_stata : string -> list string -> result DataFrame;
  pd_read_sas : string -> result DataFrame;
  pd_read_spss : string -> list string -> result DataFrame;
  pd_read_excel : string -> string -> TextOptions -> result DataFrame
}.

(** The names that [from ..constants import *] brings in and the module
    uses: the file [constants.py] is not among the sources, so they are a
    parameter.  The module compares a source type to [CSV], [TSV],
    [PARQUET], [ORC], [STATA], [SPSS], [JSON] and [XML] with [==] and looks
    it up in [EXCEL], [ODS], [FEATHER] and [SAS] with [in]. *)
Record Constants : Type := mkConstants {
  CSV : string;
  TSV : string;
  EXCEL : list string;
  ODS : list string;
  PARQUET : string;
  FEATHER : list string;
  ORC : string;
  STATA : string;
  SAS : list string;
  SPSS : string;
  JSON : string;
  XML : string
}.

Definition tab : string := String (ascii_of_nat 9) EmptyString.

Section ReadFlat.

Context {L : FlatLib}.

Definition _read_csv (mapping_rule : MappingRule) (references : list string)
           (file_source_type : string) : result DataFrame :=
  let delimiter := if String.eqb file_source_type "CSV" then ","%string else tab in
  cdf <- cudf_read_csv (data_source mapping_rule) delimiter
           (mkTextOptions references true false false) ;;
  Ok cdf.

Definition _read_parquet (mapping_rule : MappingRule) (references : list string) : result DataFrame :=
  cudf_read_parquet (data_source mapping_rule) references.

Definition _read_feather (mapping_rule : MappingRule) (references : list string) : result DataFrame :=
  cudf_read_feather (data_source mapping_rule) references.

Definition _read_orc (mapping_rule : MappingRule) (references : list string) : result DataFrame :=
  cudf_read_orc (data_source mapping_rule) references.

Definition _read_stata (mapping_rule : MappingRule) (references : list string) : result DataFrame :=
  cdf <- pd_read_stata (data_source mapping_rule) references ;;
  Ok (cudf_from_pandas cdf).

Definition _read_sas (mapping_rule : MappingRule) (references : list string) : result DataFrame :=
  cdf <- pd_read_sas (data_source mapping_rule) ;;
  Ok (cudf_from_pandas cdf).

Definition _read_spss (mapping_rule : MappingRule) (references : list string) : result DataFrame :=
  cdf <- pd_read_spss (data_source mapping_rule) references ;;
  Ok (cudf_from_pandas cdf).

Definition _read_excel (mapping_rule : MappingRule) (references : list string) : result DataFrame :=
  cdf <- pd_read_excel (data_source mapping_rule) "openpyxl"
           (mkTextOptions references true false false) ;;
  Ok (cudf_from_pandas cdf).

Definition _read_ods (mapping_rule : MappingRule) (references : list string) : result DataFrame :=
  cdf <- pd_read_excel (data_source mapping_rule) "odf"
           (mkTextOptions references true false false) ;;
  Ok (cudf_from_pandas cdf).

End ReadFlat.

(** ** Dispatch on the source type *)

Section GetFileData.

Context {L : FlatLib} {J : JsonEngine} {X : XmlEngine}.
Variable K : Constants.
Variable hash_order : SetOrder.

Definition invalid_source_type (file_source_type : string) : string :=
  ("Found an invalid source type. Found value `" ++ file_source_type ++ "`.")%string.

(** [references] arrives as any collection and is made a list first. *)
Definition get_file_data (mapping_rule : MappingRule) (references : list string) : result DataFrame :=
  let file_source_type := source_type mapping_rule in
  if mem file_source_type [CSV K; TSV K] then _read_csv mapping_rule references file_source_type
  else if mem file_source_type (EXCEL K) then _read_excel mapping_rule references
  else if mem file_source_type (ODS K) then _read_ods mapping_rule references
  else if String.eqb file_source_type (PARQUET K) then _read_parquet mapping_rule references
  else if mem file_source_type (FEATHER K) then _read_feather mapping_rule references
  else if String.eqb file_source_type (ORC K) then _read_orc mapping_rule references
  else if String.eqb file_source_type (STATA K) then _read_stata mapping_rule references
  else if mem file_source_type (SAS K) then _read_sas mapping_rule references
  else if String.eqb file_source_type (SPSS K) then _read_spss mapping_rule references
  else if String.eqb file_source_type (JSON K) then _read_json hash_order mapping_rule references
  else if String.eqb file_source_type (XML K) then _read_xml hash_order mapping_rule references
  else Raise (ValueError (invalid_source_type file_source_type)).

(** The source types [get_file_data] has a branch for. *)
Definition recognised (t : string) : Prop :=
  t = CSV K \/ t = TSV K \/ In t (EXCEL K) \/ In t (ODS K) \/ t = PARQUET K \/
  In t (FEATHER K) \/ t = ORC K \/ t = STATA K \/ In t (SAS K) \/ t = SPSS K \/
  t = JSON K \/ t = XML K.

End GetFileData.

(** ** The specification's row normalisation *)

Module Spec.

(** What one reference yields on one record. *)
Inductive ExtractedValue : Type :=
| Absent
| Single (v : value)
| Multi (vs : list value).

(** The null of a table is the missing value of the frame. *)
Definition null : value := NaN.

(** A flat row: one value per requested reference, in their order. *)
Definition FlatRow : Type := list value.

(** The expansion by one reference: a single value goes to every
    accumulator row; a sequence of [k] values replicates each accumulator
    row [k] times, the [i]-th replica receiving the [i]-th value; an absent
    value, like a sequence without elements, gives every row a null. *)
Definition expand (acc : list FlatRow) (ev : ExtractedValue) : list FlatRow :=
  match ev with
  | Absent | Multi [] => map (fun r => r ++ [null]) acc
  | Single v => map (fun r => r ++ [v]) acc
  | Multi vs => flat_map (fun r => map (fun v => r ++ [v]) vs) acc
  end.

(** RowNormalizer: start with one empty accumulator row and expand by each
    reference in turn. *)
Definition normalize (wide : list ExtractedValue) : list FlatRow :=
  fold_left expand wide [[]].

(** The cardinality of a reference on a record; a single value counts 1,
    and so does a reference that contributes a null. *)
Definition cardinality (ev : ExtractedValue) : nat :=
  match ev with
  | Absent | Multi [] => 1
  | Single _ => 1
  | Multi vs => length vs
  end.

Definition product (ks : list nat) : nat := fold_right Nat.mul 1 ks.

(** TableBuilder: the rows of the records, concatenated in record order. *)
Definition build (per_record_rows : list (list FlatRow)) : list FlatRow :=
  concat per_record_rows.

Inductive Mode : Type := KeepNull | DropIncomplete.

Definition is_absent (ev : ExtractedValue) : bool :=
  match ev with
  | Absent | Multi [] => true
  | _ => false
  end.

(** The rows of one record under a mode: under drop-incomplete a record
    with an absent reference is discarded before expansion. *)
Definition record_rows (m : Mode) (wide : list ExtractedValue) : list FlatRow :=
  match m with
  | KeepNull => normalize wide
  | DropIncomplete => if existsb is_absent wide then [] else normalize wide
  end.

End Spec.

(** The extracted value that a list of matched texts stands for. *)
Definition extracted (c : cell) : Spec.ExtractedValue :=
  match c with
  | PyList [] => Spec.Absent
  | PyList [v] => Spec.Single v
  | PyList vs => Spec.Multi vs
  | v => Spec.Single v
  end.

(** ** Small engines to run the readers on examples *)

Module Mini.

Fixpoint split_on (sep : ascii) (s : string) : list string :=
  match s with
  | EmptyString => [EmptyString]
  | String c r =>
      if Ascii.eqb c sep then EmptyString :: split_on sep r
      else match split_on sep r with
           | h :: t => String c h :: t
           | [] => [String c EmptyString]
           end
  end.

Fixpoint lookup {A : Type} (k : string) (l : list (string * A)) : option A :=
  match l with
  | [] => None
  | (k', a) :: l' => if String.eqb k' k then Some a else lookup k l'
  end.

Definition insertion_order : SetOrder := mkSetOrder (fun l => l) (@Permutation_refl string).

Definition reversed_order : SetOrder :=
  mkSetOrder (@rev string) (fun l => Permutation_sym (Permutation_rev l)).

(** *** XML: element trees and paths of child steps *)

Inductive node : Type :=
| Node (tag : string) (txt : option string) (children : list node).

Definition tag_of (n : node) : string := match n with Node t _ _ => t end.
Definition text_of (n : node) : option string := match n with Node _ t _ => t end.
Definition children_of (n : node) : list node := match n with Node _ _ c => c end.

(** The elements reached from [ns] by the child steps [steps], in document
    order. *)
Fixpoint descend (steps : list string) (ns : list node) : list node :=
  match steps with
  | [] => ns
  | s :: steps' =>
      descend steps'
        (flat_map (fun n => filter (fun c => String.eqb (tag_of c) s) (children_of n)) ns)
  end.

(** [Element.findall] on a path [a/b/...] of child names; a path that
    begins with a slash is refused ("cannot use absolute path on
    element"). *)
Definition mini_findall (e : node) (path : string) : result (list node) :=
  match path with
  | String "/" _ => Raise (SyntaxError "cannot use absolute path on element")
  | _ => Ok (descend (split_on "/" path) [e])
  end.

(** XPath on the paths [/root/a/...] and [a/...] of child names; a path
    that begins with a bracket is not an XPath 2.0 expression. *)
Definition mini_iter_select (root : node) (path : string) : result (list (xitem node)) :=
  match path with
  | String "[" _ => Raise (PyExn "ElementPathSyntaxError" "unexpected '['")
  | String "/" rest =>
      match split_on "/" rest with
      | t :: steps =>
          Ok (map XElem (if String.eqb t (tag_of root) then descend steps [root] else []))
      | [] => Ok []
      end
  | _ => Ok (map XElem (descend (split_on "/" path) [root]))
  end.

Definition xml (files : list (string * node)) : XmlEngine :=
  {| element := node;
     ET_parse := fun p =>
       match lookup p files with
       | Some n => Ok n
       | None => Raise (OSError "No such file or directory")
       end;
     iter_select := mini_iter_select;
     findall := mini_findall;
     text := text_of |}.

(** *** JSON: the steps [*], [key] and [(k1,...,kn)] of jsonpath *)

Definition field_extractor (step : string) : option (list string) :=
  match step with
  | String "(" rest =>
      match rev (split_on "," rest) with
      | last :: front =>
          match rev (list_ascii_of_string last) with
          | ")"%char :: cs => Some (rev front ++ [string_of_list_ascii (rev cs)])
          | _ => None
          end
      | [] => None
      end
  | _ => None
  end.

Definition members (obj : value) : list value :=
  match obj with
  | PyList l => l
  | PyDict d => map snd d
  | _ => []
  end.

Definition getattr (d : list (string * value)) (k : string) : value :=
  match dict_get d k with
  | Some v => v
  | None => PyNone
  end.

Fixpoint concatM {A : Type} (l : list (result (list A))) : result (list A) :=
  match l with
  | [] => Ok []
  | c :: l' => (xs <- c ;; ys <- concatM l' ;; Ok (xs ++ ys))%py
  end.

(** The walk of jsonpath over the steps of an expression: a wildcard
    visits the members of a list or object, a name the entry of an object,
    and the field extractor builds, for an object, the object of the listed
    names, with [None] for a name the object lacks (the field extractor of
    the versions 1.0 of jsonpath-python). *)
Fixpoint trace (segments : list string) (obj : value) : result (list value) :=
  match segments with
  | [] => Ok [obj]
  | step :: rest =>
      if String.eqb step "*" then concatM (map (trace rest) (members obj))
      else match field_extractor step, obj with
           | Some ks, PyDict d =>
               trace rest
                 (PyDict (fold_left (fun o k => dict_set o k (getattr d k)) ks []))
           | Some _, _ => Raise (PyExn "ExprSyntaxError" "field-extractor must acting on dict")
           | None, PyDict d =>
               match dict_get d step with
               | Some v => trace rest v
               | None => Ok []
               end
           | None, _ => Ok []
           end
  end.

Definition mini_jsonpath (expr : string) (data : value) : result (list value) :=
  match split_on "." expr with
  | "$"%string :: segments => trace segments data
  | segments => trace segments data
  end.

Definition json (files : list (string * value)) : JsonEngine :=
  {| json_load := fun p =>
       match lookup p files with
       | Some v => Ok v
       | None => Raise (OSError "No such file or directory")
       end;
     JSONPath_parse := mini_jsonpath |}.

(** *** Flat files: stored tables *)

Definition keep_columns (cols : list string) (df : DataFrame) : result DataFrame :=
  if forallb (fun c => mem c (columns df)) cols then
    let kept := filter (fun c => mem c cols) (columns df) in
    Ok (mkDF kept
          (map (fun r => map (fun c => match index_of c (columns df) with
                                       | Some i => nth i r NaN
                                       | None => NaN
                                       end) kept) (rows df)))
  else Raise (ValueError "Usecols do not match columns").

Definition as_text (c : cell) : cell :=
  match c with
  | Num lit => Str lit
  | Boolean true => Str "True"
  | Boolean false => Str "False"
  | NaN | PyNone => Str ""
  | Str s => Str s
  | PyList _ | PyDict _ => Str "object"
  end.

Definition read_text (files : list (string * DataFrame)) (p : string) (o : TextOptions)
  : result DataFrame :=
  match lookup p files with
  | None => Raise (OSError "No such file or directory")
  | Some df =>
      (kept <- keep_columns (usecols o) df ;;
       Ok (if dtype_str o && negb (na_filter o)
           then mkDF (columns kept) (map (map as_text) (rows kept))
           else kept))%py
  end.

Definition read_columns (files : list (string * DataFrame)) (p : string) (cols : list string)
  : result DataFrame :=
  match lookup p files with
  | None => Raise (OSError "No such file or directory")
  | Some df => keep_columns cols df
  end.

Definition read_whole (files : list (string * DataFrame)) (p : string) : result DataFrame :=
  match lookup p files with
  | None => Raise (OSError "No such file or directory")
  | Some df => Ok df
  end.

(** Readers over stored tables: a column selection keeps the listed
    columns of the file, text options turn every cell into a string, and a
    reader given neither returns the stored table. *)
Definition flat (files : list (string * DataFrame)) : FlatLib :=
  {| cudf_read_csv := fun p _ o => read_text files p o;
     cudf_read_parquet := read_columns files;
     cudf_read_feather := read_columns files;
     cudf_read_orc := read_columns files;
     pd_read_stata := read_columns files;
     pd_read_sas := read_whole files;
     pd_read_spss := read_columns files;
     pd_read_excel := fun p _ o => read_text files p o |}.

End Mini.

(** ** The pipeline of [_read_xml] and [_read_json], in parts *)

Section Pipeline.

Context {X : XmlEngine} {J : JsonEngine}.

(** RecordSelector and FieldExtractor of [_read_xml] (lines 148-152): per
    selected record, in the order of the selection, the list of texts
    that each reference matches. *)
Definition wide_rows (mapping_rule : MappingRule) (references : list string)
  : result (list (list cell)) :=
  xml_root <- ET_parse (data_source mapping_rule) ;;
  xpath_result <- iter_select xml_root (iterator mapping_rule) ;;
  mapM (record_texts references) xpath_result.

(** What [_read_json] hands to [pd.json_normalize] (lines 127-138). *)
Definition json_records (mapping_rule : MappingRule) (references : list string)
  : result (list (list (string * value))) :=
  json_data <- json_load (data_source mapping_rule) ;;
  jsonpath_result <- JSONPath_parse (jsonpath_expression mapping_rule references) json_data ;;
  remove_nulls (normalize_hierarchical_data (PyList jsonpath_result)).

(** Lines 138-144 of [_read_json]. *)
Definition json_table (hash_order : SetOrder) (references : list string)
           (json_objects : list (list (string * value))) : DataFrame :=
  let json_df := json_normalize json_objects in
  setitem_list json_df (set_difference hash_order references (columns json_df)) NaN.

End Pipeline.

(** The successive explosions of the columns [j], [j+1], ..., [j+n-1]. *)
Definition explode_from (j n : nat) (rs : list (list cell)) : list (list cell) :=
  fold_left (fun rs i => flat_map (explode_row i) rs) (seq j n) rs.

Definition is_list (c : cell) : bool :=
  match c with PyList _ => true | _ => false end.

Definition texts_of (c : cell) : list value :=
  match c with PyList l => l | _ => [] end.

(** The values a reference can put in a row of its record. *)
Definition choices (ev : Spec.ExtractedValue) : list value :=
  match ev with
  | Spec.Absent | Spec.Multi [] => [Spec.null]
  | Spec.Single v => [v]
  | Spec.Multi vs => vs
  end.

(** A frame whose rows have one cell per column. *)
Definition well_formed (df : DataFrame) : Prop :=
  Forall (fun r => length r = length (columns df)) (rows df).

(** The cell of [row] in the column called [key]. *)
Definition cell_at (df : DataFrame) (key : string) (row : list cell) : option cell :=
  match index_of key (columns df) with
  | Some i => nth_error row i
  | None => None
  end.

Definition same_labels (a b : list string) : Prop :=
  forall x, In x a <-> In x b.

Definition all_strings (df : DataFrame) : Prop :=
  Forall (Forall (fun c => is_str c = true)) (rows df).

(** A text, [None] or the missing value: what a cell holds once its list
    is exploded. *)
Definition is_text_or_null (c : cell) : bool :=
  match c with
  | NaN | PyNone | Str _ => true
  | _ => false
  end.

(** The objects of a list that are dictionaries without a [None] among
    their values. *)
Definition complete (d : list (string * value)) : Prop :=
  forall k v, In (k, v) d -> v <> PyNone.

(** ** What the flat-format libraries promise *)

(** A reader with a column selection returns the selected columns. *)
Definition selects (read : list string -> result DataFrame) : Prop :=
  forall cols df, read cols = Ok df -> same_labels (columns df) cols.

(** A reader with text options returns the columns of [usecols], and only
    strings when [dtype=str] is set and the detection of missing values is
    switched off. *)
Definition selects_text (read : TextOptions -> result DataFrame) : Prop :=
  forall o df,
    read o = Ok df ->
    same_labels (columns df) (usecols o) /\
    (dtype_str o = true -> na_filter o = false -> all_strings df).

Record Contract (L : FlatLib) : Prop := mkContract {
  csv_contract : forall p d, selects_text (cudf_read_csv p d);
  excel_contract : forall p engine, selects_text (pd_read_excel p engine);
  parquet_contract : forall p, selects (cudf_read_parquet p);
  feather_contract : forall p, selects (cudf_read_feather p);
  orc_contract : forall p, selects (cudf_read_orc p);
  stata_contract : forall p, selects (pd_read_stata p);
  spss_contract : forall p, selects (pd_read_spss p)
}.

(** ** Example documents *)

Module Examples.

Local Open Scope string_scope.

(** Two records: Ann with two tags, Bob with none. *)
Definition people_xml : Mini.node :=
  Mini.Node "root" None
    [Mini.Node "item" None
       [Mini.Node "name" (Some "Ann") [];
        Mini.Node "tag" (Some "x") [];
        Mini.Node "tag" (Some "y") []];
     Mini.Node "item" None
       [Mini.Node "name" (Some "Bob") []]].

Definition xml_engine : XmlEngine := Mini.xml [("people.xml", people_xml)].

Definition xml_rule : MappingRule := mkRule "XML" "people.xml" "/root/item".
Definition xml_rule_no_match : MappingRule := mkRule "XML" "people.xml" "/root/nothing".
Definition xml_rule_bad_iterator : MappingRule := mkRule "XML" "people.xml" "[".

Definition people_json : value :=
  PyList [PyDict [("name", Str "Ann"); ("tag", PyList [Str "x"; Str "y"])];
          PyDict [("name", Str "Bob")]].

(** One record with a nested object. *)
Definition works_json : value :=
  PyList [PyDict [("id", Num "1");
                  ("creator", PyDict [("name", Str "Ann"); ("age", Num "7")])]].

Definition json_engine : JsonEngine :=
  Mini.json [("people.json", people_json); ("works.json", works_json)].

Definition json_rule : MappingRule := mkRule "JSON" "people.json" "$.*".
Definition json_rule_no_match : MappingRule := mkRule "JSON" "people.json" "$.nothing".
Definition works_rule : MappingRule := mkRule "JSON" "works.json" "$.*".

(** The extracted values of the two records for the references [name] and
    [tag]. *)
Definition people_wide : list (list Spec.ExtractedValue) :=
  [[Spec.Single (Str "Ann"); Spec.Multi [Str "x"; Str "y"]];
   [Spec.Single (Str "Bob"); Spec.Absent]].

Definition keep_null_rows : list (list cell) :=
  [[Str "Ann"; Str "x"]; [Str "Ann"; Str "y"]; [Str "Bob"; NaN]].

Definition drop_incomplete_rows : list (list cell) :=
  [[Str "Ann"; Str "x"]; [Str "Ann"; Str "y"]].

(** A stored table with numbers, under three file names. *)
Definition measurements : DataFrame :=
  mkDF ["id"; "value"] [[Num "1"; Num "20"]; [Num "2"; Num "30"]].

Definition flat_engine : FlatLib :=
  Mini.flat [("m.csv", measurements); ("m.parquet", measurements);
             ("m.sas7bdat", measurements)].

Definition csv_rule : MappingRule := mkRule "CSV" "m.csv" "".
Definition parquet_rule : MappingRule := mkRule "PARQUET" "m.parquet" "".
Definition sas_rule : MappingRule := mkRule "SAS7BDAT" "m.sas7bdat" "".
Definition yaml_rule : MappingRule := mkRule "YAML" "m.yaml" "".

(** Values for the constants, for the examples. *)
Definition constants : Constants :=
  mkConstants "CSV" "TSV" ["XLS"; "XLSX"; "XLSM"; "XLSB"] ["ODS"; "FODS"]
              "PARQUET" ["FEATHER"; "ARROW"] "ORC" "DTA" ["XPT"; "SAS7BDAT"] "SAV"
              "JSON" "XML".

End Examples.

(** ** An engine that selects texts *)

Module TextSelection.

(** The texts of the selected elements, as atomic items: what an XPath
    that ends in a text or attribute step yields. *)
Definition texts_of_selection (root : Mini.node) (path : string)
  : result (list (xitem Mini.node)) :=
  items <- Mini.mini_iter_select root path ;;
  Ok (map (fun item =>
             match item with
             | XElem e => XAtom (match Mini.text_of e with Some t => t | None => EmptyString end)
             | XAtom t => XAtom t
             end) items).

Definition engine : XmlEngine :=
  {| element := Mini.node;
     ET_parse := fun _ => Ok Examples.people_xml;
     iter_select := texts_of_selection;
     findall := Mini.mini_findall;
     text := Mini.text_of |}.

Definition names_rule : MappingRule := mkRule "XML" "people.xml" "/root/item/name".

End TextSelection.

(** ** Lemmas on the monad and on lists *)

Lemma bind_ok_inv {A B : Type} (c : result A) (k : A -> result B) (b : B) :
  bind c k = Ok b -> exists a, c = Ok a /\ k a = Ok b.
Proof.
  destruct c as [a | e]; simpl; intros H.
  - exists a. split; [reflexivity | exact H].
  - discriminate H.
Qed.

Lemma mapM_Forall2 {A B : Type} (f : A -> result B) (l : list A) (ys : list B) :
  mapM f l = Ok ys -> Forall2 (fun x y => f x = Ok y) l ys.
Proof.
  revert ys. induction l as [| x l IH]; simpl; intros ys H.
  - injection H as <-. constructor.
  - apply bind_ok_inv in H. destruct H as (y & Hy & H).
    apply bind_ok_inv in H. destruct H as (ys' & Hys & H).
    injection H as <-. constructor; auto.
Qed.

Lemma Forall2_mapM {A B : Type} (f : A -> result B) (l : list A) (ys : list B) :
  Forall2 (fun x y => f x = Ok y) l ys -> mapM f l = Ok ys.
Proof.
  induction 1 as [| x y l ys Hxy _ IH]; simpl.
  - reflexivity.
  - rewrite Hxy. simpl. rewrite IH. reflexivity.
Qed.

Lemma mapM_length {A B : Type} (f : A -> result B) (l : list A) (ys : list B) :
  mapM f l = Ok ys -> length ys = length l.
Proof.
  intros H. apply mapM_Forall2 in H. symmetry. eapply Forall2_length; eauto.
Qed.

Lemma mem_In (x : string) (l : list string) : mem x l = true <-> In x l.
Proof.
  unfold mem. rewrite existsb_exists. split.
  - intros (y & Hy & E). apply String.eqb_eq in E. subst. exact Hy.
  - intros H. exists x. split; [exact H | apply String.eqb_refl].
Qed.

Lemma mem_false (x : string) (l : list string) : mem x l = false <-> ~ In x l.
Proof.
  rewrite <- mem_In. destruct (mem x l); split; intros H; congruence.
Qed.

Lemma unique_NoDup (l : list string) : unique l = true <-> NoDup l.
Proof.
  induction l as [| x l IH]; simpl.
  - split; [constructor | reflexivity].
  - rewrite andb_true_iff, negb_true_iff, mem_false, IH. split.
    + intros [H1 H2]. constructor; assumption.
    + intros H. inversion H; subst. split; assumption.
Qed.

Lemma flat_map_singleton {A B : Type} (f : A -> B) (l : list A) :
  flat_map (fun x => [f x]) l = map f l.
Proof.
  induction l as [| x l IH]; simpl; [reflexivity | now rewrite IH].
Qed.

Lemma flat_map_map {A B C : Type} (f : A -> B) (g : B -> list C) (l : list A) :
  flat_map g (map f l) = flat_map (fun x => g (f x)) l.
Proof.
  induction l as [| x l IH]; simpl; [reflexivity | now rewrite IH].
Qed.

Lemma map_flat_map {A B C : Type} (f : A -> list B) (g : B -> C) (l : list A) :
  map g (flat_map f l) = flat_map (fun x => map g (f x)) l.
Proof.
  induction l as [| x l IH]; simpl; [reflexivity | now rewrite map_app, IH].
Qed.

Lemma flat_map_ext' {A B : Type} (f g : A -> list B) (l : list A) :
  (forall x, In x l -> f x = g x) -> flat_map f l = flat_map g l.
Proof.
  induction l as [| x l IH]; simpl; intros H; [reflexivity |].
  rewrite H by (left; reflexivity). rewrite IH; [reflexivity |].
  intros y Hy. apply H. right. exact Hy.
Qed.

Lemma flat_map_length_const {A B : Type} (f : A -> list B) (k : nat) (l : list A) :
  (forall x, In x l -> length (f x) = k) -> length (flat_map f l) = length l * k.
Proof.
  induction l as [| x l IH]; simpl; intros H; [reflexivity |].
  rewrite length_app, H by (left; reflexivity). rewrite IH; [lia |].
  intros y Hy. apply H. right. exact Hy.
Qed.

(** ** Lemmas on frames *)

Lemma index_of_app_fresh (key : string) (pre post : list string) :
  ~ In key pre -> index_of key (pre ++ key :: post) = Some (length pre).
Proof.
  induction pre as [| c pre IH]; simpl; intros H.
  - now rewrite String.eqb_refl.
  - destruct (String.eqb c key) eqn:E.
    + apply String.eqb_eq in E. exfalso. apply H. left. exact E.
    + rewrite IH; [reflexivity |]. intros Hin. apply H. right. exact Hin.
Qed.

Lemma index_of_Some (key : string) (cols : list string) (i : nat) :
  index_of key cols = Some i -> nth_error cols i = Some key.
Proof.
  revert i. induction cols as [| c cols IH]; simpl; intros i H; [discriminate |].
  destruct (String.eqb c key) eqn:E.
  - injection H as <-. apply String.eqb_eq in E. now subst.
  - destruct (index_of key cols) as [j |]; [| discriminate].
    injection H as <-. simpl. now apply IH.
Qed.

Lemma index_of_None (key : string) (cols : list string) :
  index_of key cols = None <-> ~ In key cols.
Proof.
  induction cols as [| c cols IH]; simpl.
  - tauto.
  - destruct (String.eqb c key) eqn:E.
    + apply String.eqb_eq in E. split; [discriminate | intros H; exfalso; apply H; now left].
    + apply String.eqb_neq in E. destruct (index_of key cols).
      * split; [discriminate |]. intros H. exfalso. apply H. right.
        destruct IH as [_ IH].
        destruct (in_dec string_dec key cols) as [Hin | Hnin]; [exact Hin |].
        specialize (IH Hnin). discriminate.
      * split; [| reflexivity]. intros _ [H | H]; [congruence | now apply IH].
Qed.

Lemma nth_error_middle {A : Type} (p : list A) (c : A) (rest : list A) :
  nth_error (p ++ c :: rest) (length p) = Some c.
Proof.
  induction p as [| x p IH]; simpl; [reflexivity | exact IH].
Qed.

Lemma set_nth_middle (p : list cell) (c v : cell) (rest : list cell) :
  set_nth (length p) v (p ++ c :: rest) = p ++ v :: rest.
Proof.
  induction p as [| x p IH]; simpl; [reflexivity | now rewrite IH].
Qed.

Lemma explode_row_middle (p : list cell) (l : list value) (rest : list cell) :
  explode_row (length p) (p ++ PyList l :: rest)
  = map (fun v => p ++ v :: rest) (choices (extracted (PyList l))).
Proof.
  unfold explode_row. rewrite nth_error_middle.
  destruct l as [| v [| v' l]]; simpl; rewrite ?set_nth_middle; try reflexivity.
  f_equal. f_equal. apply map_ext. intros a. apply set_nth_middle.
Qed.

Lemma expand_choices (acc : list Spec.FlatRow) (ev : Spec.ExtractedValue) :
  Spec.expand acc ev = flat_map (fun r => map (fun v => r ++ [v]) (choices ev)) acc.
Proof.
  destruct ev as [| v | [| v vs]]; simpl; try reflexivity;
    now rewrite flat_map_singleton.
Qed.

Lemma expand_lengths (acc : list Spec.FlatRow) (ev : Spec.ExtractedValue) (j : nat) :
  Forall (fun p => length p = j) acc ->
  Forall (fun p => length p = S j) (Spec.expand acc ev).
Proof.
  intros H. rewrite expand_choices. apply Forall_forall. intros q Hq.
  apply in_flat_map in Hq. destruct Hq as (r & Hr & Hq).
  apply in_map_iff in Hq. destruct Hq as (v & <- & _).
  rewrite Forall_forall in H. rewrite length_app, (H r Hr). simpl. lia.
Qed.

Lemma explode_from_S (j n : nat) (rs : list (list cell)) :
  explode_from j (S n) rs = explode_from (S j) n (flat_map (explode_row j) rs).
Proof. reflexivity. Qed.

Lemma explode_from_app (j n : nat) (rs1 rs2 : list (list cell)) :
  explode_from j n (rs1 ++ rs2) = explode_from j n rs1 ++ explode_from j n rs2.
Proof.
  revert j rs1 rs2. induction n as [| n IH]; intros j rs1 rs2; [reflexivity |].
  now rewrite !explode_from_S, flat_map_app, IH.
Qed.

Lemma explode_from_nil (j n : nat) : explode_from j n [] = [].
Proof.
  revert j. induction n as [| n IH]; intros j; [reflexivity |].
  rewrite explode_from_S. simpl. apply IH.
Qed.

Lemma explode_from_rows (j n : nat) (rs : list (list cell)) :
  explode_from j n rs = flat_map (fun r => explode_from j n [r]) rs.
Proof.
  induction rs as [| r rs IH]; simpl.
  - apply explode_from_nil.
  - change (r :: rs) with ([r] ++ rs). now rewrite explode_from_app, IH.
Qed.

(** The explosions of the columns of one record, left to right, are the
    expansion of the specification. *)
Lemma explode_wide (w : list (list value)) :
  forall (acc : list Spec.FlatRow) (j : nat),
    Forall (fun p => length p = j) acc ->
    explode_from j (length w) (map (fun p => p ++ map PyList w) acc)
    = fold_left Spec.expand (map extracted (map PyList w)) acc.
Proof.
  induction w as [| l w IH]; intros acc j Hacc.
  - simpl. unfold explode_from. simpl. rewrite <- (map_id acc) at 2.
    apply map_ext. intros p. apply app_nil_r.
  - simpl length. rewrite explode_from_S. simpl map. simpl fold_left.
    rewrite flat_map_map.
    rewrite (flat_map_ext' _
               (fun p => map (fun q => q ++ map PyList w)
                           (map (fun v => p ++ [v]) (choices (extracted (PyList l)))))).
    + rewrite <- map_flat_map, <- expand_choices.
      apply IH. now apply expand_lengths.
    + intros p Hp. rewrite Forall_forall in Hacc. rewrite <- (Hacc p Hp).
      rewrite explode_row_middle, map_map. apply map_ext. intros v.
      now rewrite <- app_assoc.
Qed.

Lemma lists_are_texts (w : list cell) :
  Forall (fun c => is_list c = true) w -> w = map PyList (map texts_of w).
Proof.
  induction 1 as [| c w Hc _ IH]; simpl; [reflexivity |].
  destruct c; try discriminate. simpl. now rewrite <- IH.
Qed.

Lemma explode_record (w : list cell) :
  Forall (fun c => is_list c = true) w ->
  explode_from 0 (length w) [w] = Spec.normalize (map extracted w).
Proof.
  intros H. rewrite (lists_are_texts w H) at 2 3.
  unfold Spec.normalize. rewrite <- explode_wide with (j := 0).
  - simpl. rewrite <- (lists_are_texts w H). now rewrite !length_map.
  - constructor; [reflexivity | constructor].
Qed.

Lemma unique_app_fresh (pre : list string) (r : string) (l : list string) :
  unique (pre ++ r :: l) = true -> ~ In r pre.
Proof.
  rewrite unique_NoDup. intros H Hin. apply NoDup_remove_2 in H.
  apply H. apply in_or_app. now left.
Qed.

Lemma foldM_explode (l : list string) :
  forall (pre : list string) (data : list (list cell)),
    unique (pre ++ l) = true ->
    foldM explode l (mkDF (pre ++ l) data)
    = Ok (mkDF (pre ++ l) (explode_from (length pre) (length l) data)).
Proof.
  induction l as [| r l IH]; intros pre data Hu.
  - reflexivity.
  - simpl foldM. unfold explode at 1. simpl columns. rewrite Hu.
    rewrite index_of_app_fresh by (eapply unique_app_fresh; eauto).
    simpl bind. simpl rows.
    replace (pre ++ r :: l) with ((pre ++ [r]) ++ l) in * by now rewrite <- app_assoc.
    rewrite IH by assumption. rewrite length_app. simpl length.
    rewrite explode_from_S. now rewrite Nat.add_1_r.
Qed.

Lemma foldM_explode_duplicates (r : string) (l : list string) (data : list (list cell)) :
  unique (r :: l) = false ->
  foldM explode (r :: l) (mkDF (r :: l) data) = Raise (ValueError "columns must be unique").
Proof.
  intros Hu. simpl foldM. unfold explode at 1. simpl columns. now rewrite Hu.
Qed.

(** ** The XML reader in terms of its wide rows *)

Section XmlFacts.

Context {X : XmlEngine}.

Lemma reference_texts_list (e : element) (reference : string) (c : cell) :
  reference_texts e reference = Ok c -> is_list c = true.
Proof.
  unfold reference_texts. intros H. apply bind_ok_inv in H.
  destruct H as (rs & _ & H). injection H as <-. reflexivity.
Qed.

Lemma record_texts_shape (references : list string) (e : xitem element) (w : list cell) :
  record_texts references e = Ok w ->
  length w = length references /\ Forall (fun c => is_list c = true) w.
Proof.
  destruct e as [e | s]; simpl; intros H.
  - split; [eapply mapM_length; eauto |].
    apply mapM_Forall2 in H. clear - H.
    induction H as [| r c rs w Hrc _ IH]; constructor; auto.
    eapply reference_texts_list; eauto.
  - destruct references; [| discriminate]. injection H as <-. split; constructor.
Qed.

Lemma wide_rows_shape (mapping_rule : MappingRule) (references : list string)
      (wide : list (list cell)) :
  wide_rows mapping_rule references = Ok wide ->
  Forall (fun w => length w = length references /\ Forall (fun c => is_list c = true) w) wide.
Proof.
  unfold wide_rows. intros H.
  apply bind_ok_inv in H. destruct H as (root & _ & H).
  apply bind_ok_inv in H. destruct H as (items & _ & H).
  apply mapM_Forall2 in H. clear - H.
  induction H as [| e w items wide Hew _ IH]; constructor; auto.
  eapply record_texts_shape; eauto.
Qed.

Lemma set_difference_self (hash_order : SetOrder) (l : list string) :
  set_difference hash_order l l = [].
Proof.
  unfold set_difference.
  assert (E : forall m, incl m l -> filter (fun x => negb (mem x l)) m = []).
  { induction m as [| y m IHm]; intros Hm; [reflexivity |].
    simpl. rewrite (proj2 (mem_In y l)) by (apply Hm; now left).
    simpl. apply IHm. intros z Hz. apply Hm. now right. }
  rewrite E by apply incl_refl.
  simpl. apply Permutation_nil. apply Permutation_sym. apply arrange_perm.
Qed.

Lemma dropna_lists (cols : list string) (data : list (list cell)) :
  Forall (Forall (fun c => is_list c = true)) data ->
  dropna (mkDF cols data) = mkDF cols data.
Proof.
  intros H. unfold dropna. simpl. f_equal.
  induction H as [| r data Hr _ IH]; simpl; [reflexivity |].
  assert (E : existsb isna r = false).
  { clear - Hr. induction Hr as [| c r Hc _ IHr]; simpl; [reflexivity |].
    rewrite IHr. destruct c; try discriminate. reflexivity. }
  rewrite E. simpl. now rewrite IH.
Qed.

(** The table of [_read_xml] when selection and extraction succeed: the
    requested columns, and the expansions of the records one after the
    other; duplicate references are refused by [explode]. *)
Lemma read_xml_of_wide (hash_order : SetOrder) (mapping_rule : MappingRule)
      (references : list string) (wide : list (list cell)) :
  wide_rows mapping_rule references = Ok wide ->
  _read_xml hash_order mapping_rule references
  = match references with
    | [] => Ok empty_frame
    | _ =>
        if unique references then
          Ok (mkDF references
                (Spec.build (map (fun w => Spec.normalize (map extracted w)) wide)))
        else Raise (ValueError "columns must be unique")
    end.
Proof.
  intros Hw. pose proof (wide_rows_shape _ _ _ Hw) as Hshape.
  unfold wide_rows in Hw. unfold _read_xml.
  destruct (ET_parse (data_source mapping_rule)) as [root |]; [| discriminate].
  simpl in *.
  destruct (iter_select root (iterator mapping_rule)) as [items |]; [| discriminate].
  simpl in *. rewrite Hw. simpl.
  assert (Hlen : forallb (fun r => length r =? length references) wide = true).
  { apply forallb_forall. intros w Hin. rewrite Forall_forall in Hshape.
    apply Nat.eqb_eq. now apply Hshape. }
  unfold from_records. rewrite Hlen.
  destruct references as [| r refs].
  - simpl. rewrite set_difference_self. reflexivity.
  - simpl bind. simpl columns. rewrite set_difference_self.
    unfold setitem_list. simpl fold_left.
    rewrite dropna_lists.
    2:{ eapply Forall_impl; [| exact Hshape]. intros w [_ H]. exact H. }
    destruct (unique (r :: refs)) eqn:Hu.
    + pose proof (foldM_explode (r :: refs) [] wide Hu) as HE.
      simpl app in HE. simpl foldM in HE. rewrite HE. simpl bind.
      unfold cudf_from_pandas. f_equal. f_equal. simpl length at 1.
      rewrite explode_from_rows. unfold Spec.build.
      rewrite <- flat_map_concat_map. apply flat_map_ext'. intros w Hin.
      rewrite Forall_forall in Hshape. destruct (Hshape w Hin) as [Hl Hc].
      change (S (length refs)) with (length (r :: refs)). rewrite <- Hl.
      now apply explode_record.
    + pose proof (foldM_explode_duplicates r refs wide Hu) as HE.
      simpl foldM in HE. now rewrite HE.
Qed.

Lemma read_xml_raises (hash_order : SetOrder) (mapping_rule : MappingRule)
      (references : list string) (e : exn) :
  wide_rows mapping_rule references = Raise e ->
  _read_xml hash_order mapping_rule references = Raise e.
Proof.
  unfold wide_rows, _read_xml. intros H.
  destruct (ET_parse (data_source mapping_rule)) as [root |]; [| simpl in *; congruence].
  simpl in *.
  destruct (iter_select root (iterator mapping_rule)) as [items |]; [| simpl in *; congruence].
  simpl in *. now rewrite H.
Qed.

End XmlFacts.

(** ** The JSON reader in terms of its records *)

Lemma index_of_lt (key : string) (cols : list string) (i : nat) :
  index_of key cols = Some i -> i < length cols.
Proof.
  intros H. apply index_of_Some in H. apply nth_error_Some. congruence.
Qed.

Lemma index_of_app (key : string) (a b : list string) :
  index_of key (a ++ b)
  = match index_of key a with
    | Some i => Some i
    | None => option_map (Nat.add (length a)) (index_of key b)
    end.
Proof.
  induction a as [| c a IH]; simpl.
  - destruct (index_of key b); reflexivity.
  - destruct (String.eqb c key); [reflexivity |].
    rewrite IH. destruct (index_of key a); [reflexivity |].
    destruct (index_of key b); reflexivity.
Qed.

Lemma index_of_In (key : string) (cols : list string) :
  In key cols -> exists i, index_of key cols = Some i.
Proof.
  intros H. destruct (index_of key cols) as [i |] eqn:E; [now exists i |].
  apply index_of_None in E. contradiction.
Qed.

Lemma setitem_list_fresh (v : value) (keys : list string) :
  forall df : DataFrame,
    NoDup keys ->
    (forall k, In k keys -> ~ In k (columns df)) ->
    setitem_list df keys v
    = mkDF (columns df ++ keys) (map (fun r => r ++ repeat v (length keys)) (rows df)).
Proof.
  induction keys as [| k keys IH]; intros df Hnd Hfresh.
  - simpl. rewrite app_nil_r. destruct df as [cols rs]. simpl. f_equal.
    rewrite <- (map_id rs) at 1. apply map_ext. intros r. now rewrite app_nil_r.
  - unfold setitem_list. simpl fold_left. unfold setitem at 2.
    rewrite (proj2 (mem_false k (columns df))) by (apply Hfresh; now left).
    inversion Hnd as [| k' keys' Hk Hnd']; subst.
    change (fold_left (fun d k0 => setitem d k0 v) keys ?d) with (setitem_list d keys v).
    rewrite IH; [| assumption |].
    + simpl. rewrite <- app_assoc. simpl. f_equal. rewrite map_map.
      apply map_ext. intros r. now rewrite <- app_assoc.
    + simpl. intros k' Hk' Hin. apply in_app_or in Hin. destruct Hin as [Hin | [-> | []]].
      * apply (Hfresh k'); [now right | assumption].
      * contradiction.
Qed.

Lemma set_difference_In (hash_order : SetOrder) (a b : list string) (x : string) :
  In x (set_difference hash_order a b) <-> In x a /\ ~ In x b.
Proof.
  unfold set_difference. split.
  - intros H. apply (Permutation_in _ (arrange_perm hash_order _)) in H.
    apply nodup_In in H. apply filter_In in H. destruct H as [Ha Hb].
    apply negb_true_iff in Hb. apply mem_false in Hb. now split.
  - intros [Ha Hb].
    apply (Permutation_in _ (Permutation_sym (arrange_perm hash_order _))).
    apply nodup_In. apply filter_In. split; [assumption |].
    apply negb_true_iff. now apply mem_false.
Qed.

Lemma set_difference_NoDup (hash_order : SetOrder) (a b : list string) :
  NoDup (set_difference hash_order a b).
Proof.
  unfold set_difference.
  eapply Permutation_NoDup; [apply Permutation_sym, arrange_perm | apply NoDup_nodup].
Qed.

Lemma set_difference_orders (h1 h2 : SetOrder) (a b : list string) :
  Permutation (set_difference h1 a b) (set_difference h2 a b).
Proof.
  unfold set_difference. etransitivity; [apply arrange_perm |].
  apply Permutation_sym, arrange_perm.
Qed.

Lemma json_normalize_well_formed (records : list (list (string * value))) :
  well_formed (json_normalize records).
Proof.
  unfold well_formed, json_normalize. simpl. apply Forall_forall.
  intros r Hr. apply in_map_iff in Hr. destruct Hr as (o & <- & _).
  unfold record_row. apply length_map.
Qed.

(** The table of [_read_json]: the frame of the normalised records, then
    one all-null column per reference that is not among its labels, in the
    order in which the interpreter iterates over the set of those
    references. *)
Lemma json_table_shape (hash_order : SetOrder) (references : list string)
      (json_objects : list (list (string * value))) :
  let json_df := json_normalize json_objects in
  let missing := set_difference hash_order references (columns json_df) in
  json_table hash_order references json_objects
  = mkDF (columns json_df ++ missing)
         (map (fun r => r ++ repeat NaN (length missing)) (rows json_df)).
Proof.
  intros json_df missing. unfold json_table. fold json_df. fold missing.
  apply setitem_list_fresh.
  - apply set_difference_NoDup.
  - intros k Hk. apply set_difference_In in Hk. tauto.
Qed.

Section JsonFacts.

Context {J : JsonEngine}.

Lemma read_json_of_records (hash_order : SetOrder) (mapping_rule : MappingRule)
      (references : list string) :
  _read_json hash_order mapping_rule references
  = bind (json_records mapping_rule references)
         (fun json_objects => Ok (json_table hash_order references json_objects)).
Proof.
  unfold _read_json, json_records, json_table, cudf_from_pandas.
  destruct (json_load (data_source mapping_rule)) as [data |]; [| reflexivity].
  simpl.
  destruct (JSONPath_parse (jsonpath_expression mapping_rule references) data)
    as [res |]; [| reflexivity].
  simpl.
  destruct (remove_nulls (flat_map normalize_hierarchical_data res)); reflexivity.
Qed.

End JsonFacts.

Lemma nth_error_padded (r : list cell) (n i : nat) (v : value) :
  length r <= i -> i < length r + n -> nth_error (r ++ repeat v n) i = Some v.
Proof.
  intros H1 H2. rewrite nth_error_app2 by assumption.
  apply nth_error_repeat. lia.
Qed.

(** The cells of a column of a padded frame. *)
Lemma column_values_padded (cols miss : list string) (rs : list (list cell)) (key : string) :
  Forall (fun r => length r = length cols) rs ->
  column_values (mkDF (cols ++ miss) (map (fun r => r ++ repeat NaN (length miss)) rs)) key
  = match index_of key cols with
    | Some i => Some (map (fun r => nth_error r i) rs)
    | None => if mem key miss then Some (map (fun _ => Some NaN) rs) else None
    end.
Proof.
  intros Hwf. unfold column_values. simpl. rewrite index_of_app.
  destruct (index_of key cols) as [i |] eqn:Ei.
  - f_equal. rewrite map_map. apply map_ext_in. intros r Hr.
    rewrite Forall_forall in Hwf. apply nth_error_app1.
    rewrite (Hwf r Hr). eapply index_of_lt; eauto.
  - destruct (mem key miss) eqn:Em.
    + apply mem_In in Em. destruct (index_of_In _ _ Em) as (j & Ej).
      rewrite Ej. simpl. f_equal. rewrite map_map. apply map_ext_in. intros r Hr.
      rewrite Forall_forall in Hwf. apply nth_error_padded.
      * rewrite (Hwf r Hr). lia.
      * rewrite (Hwf r Hr). apply index_of_lt in Ej. lia.
    + apply mem_false in Em. apply index_of_None in Em. now rewrite Em.
Qed.

(** ** The rows of one record *)

Lemma choices_cardinality (ev : Spec.ExtractedValue) :
  length (choices ev) = Spec.cardinality ev.
Proof.
  destruct ev as [| v | [| v vs]]; reflexivity.
Qed.

Lemma cardinality_positive (ev : Spec.ExtractedValue) : 0 < Spec.cardinality ev.
Proof.
  destruct ev as [| v | [| v vs]]; simpl; lia.
Qed.

Lemma expand_all_length (evs : list Spec.ExtractedValue) :
  forall acc : list Spec.FlatRow,
    length (fold_left Spec.expand evs acc)
    = length acc * Spec.product (map Spec.cardinality evs).
Proof.
  induction evs as [| ev evs IH]; intros acc; simpl.
  - lia.
  - rewrite IH, expand_choices.
    rewrite (flat_map_length_const _ (Spec.cardinality ev)).
    + symmetry. apply Nat.mul_assoc.
    + intros r _. now rewrite length_map, choices_cardinality.
Qed.

Lemma normalize_length (evs : list Spec.ExtractedValue) :
  length (Spec.normalize evs) = Spec.product (map Spec.cardinality evs).
Proof.
  unfold Spec.normalize. rewrite expand_all_length. simpl. lia.
Qed.

Lemma product_positive (evs : list Spec.ExtractedValue) :
  0 < Spec.product (map Spec.cardinality evs).
Proof.
  induction evs as [| ev evs IH]; simpl; [lia |].
  pose proof (cardinality_positive ev). fold (Spec.product (map Spec.cardinality evs)). nia.
Qed.

(** Every row of a record takes, for each reference, one of the values the
    reference offers. *)
Lemma expand_all_rows (evs : list Spec.ExtractedValue) :
  forall (acc : list Spec.FlatRow) (row : Spec.FlatRow),
    In row (fold_left Spec.expand evs acc) ->
    exists p q, In p acc /\ row = p ++ q /\ Forall2 (fun ev v => In v (choices ev)) evs q.
Proof.
  induction evs as [| ev evs IH]; intros acc row Hin; simpl in Hin.
  - exists row, []. rewrite app_nil_r. repeat split; [assumption | constructor].
  - apply IH in Hin. destruct Hin as (p & q & Hp & -> & Hq).
    rewrite expand_choices in Hp. apply in_flat_map in Hp.
    destruct Hp as (r & Hr & Hp). apply in_map_iff in Hp. destruct Hp as (v & <- & Hv).
    exists r, (v :: q). rewrite <- app_assoc. repeat split; [assumption |].
    constructor; assumption.
Qed.

Lemma normalize_rows (evs : list Spec.ExtractedValue) (row : Spec.FlatRow) :
  In row (Spec.normalize evs) -> Forall2 (fun ev v => In v (choices ev)) evs row.
Proof.
  intros H. apply expand_all_rows in H. destruct H as (p & q & [<- | []] & -> & Hq).
  exact Hq.
Qed.

Lemma normalize_absent (w : list cell) (row : Spec.FlatRow) (i : nat) :
  In row (Spec.normalize (map extracted w)) ->
  nth_error w i = Some (PyList []) ->
  nth_error row i = Some NaN.
Proof.
  intros Hrow. apply normalize_rows in Hrow. revert i.
  remember (map extracted w) as evs eqn:E. revert w E.
  induction Hrow as [| ev v evs row Hv _ IH]; intros w E i Hi.
  - destruct w; [| discriminate]. destruct i; discriminate.
  - destruct w as [| c w]; [discriminate |]. injection E as -> ->.
    destruct i as [| i]; simpl in *.
    + injection Hi as ->. simpl in Hv. destruct Hv as [<- | []]. reflexivity.
    + eapply IH; eauto.
Qed.

Lemma mapM_raises {A B : Type} (f : A -> result B) (l : list A) (x : A) (err : exn) :
  In x l -> f x = Raise err -> exists e, mapM f l = Raise e.
Proof.
  induction l as [| y l IH]; intros Hin Hx; [contradiction |].
  simpl. destruct Hin as [-> | Hin].
  - rewrite Hx. now exists err.
  - destruct (f y) as [b | e]; [| now exists e]. simpl.
    destruct (IH Hin Hx) as (e & ->). now exists e.
Qed.

(** ** Column invariant *)




(** ** Cross-product law *)

(** The cardinality of a reference on a record is the number of texts it
    matches, and 1 when it matches none. *)
Lemma cardinality_of_texts (l : list value) :
  Spec.cardinality (extracted (PyList l)) = Nat.max 1 (length l).
Proof.
  destruct l as [| v [| v' l]]; reflexivity.
Qed.

(** C2, as amended.  For a non-empty list of references without repetition,
    when selection and extraction succeed, [_read_xml] returns the table
    whose rows are those of the selected records one after the other, and a
    record whose references match [k1], ..., [kn] texts (a reference with
    one match, or with none, counts 1) contributes the [k1 * ... * kn] rows
    of the sequential left-to-right expansion. *)
Theorem cross_product_row_count :
  forall (X : XmlEngine) (hash_order : SetOrder) (mapping_rule : MappingRule)
         (references : list string) (wide : list (list cell)),
    references <> [] ->
    NoDup references ->
    wide_rows mapping_rule references = Ok wide ->
    exists blocks : list (list (list cell)),
      _read_xml hash_order mapping_rule references
      = Ok (mkDF references (concat blocks)) /\
      Forall2 (fun w block =>
                 block = Spec.normalize (map extracted w) /\
                 length block
                 = Spec.product (map (fun c => Spec.cardinality (extracted c)) w))
              wide blocks.
Proof.
  intros X h rule refs wide Hne Hnd Hw.
  exists (map (fun w => Spec.normalize (map extracted w)) wide). split.
  - rewrite (read_xml_of_wide h rule refs wide Hw).
    destruct refs as [| r refs]; [contradiction |].
    now rewrite (proj2 (unique_NoDup (r :: refs)) Hnd).
  - clear. induction wide as [| w wide IH]; simpl; constructor; [| exact IH].
    split; [reflexivity |]. now rewrite normalize_length, map_map.
Qed.

Lemma cross_product_row_count_people :
  exists blocks : list (list (list cell)),
    @_read_xml Examples.xml_engine Mini.insertion_order Examples.xml_rule
      ["name"%string; "tag"%string]
    = Ok (mkDF ["name"%string; "tag"%string] (concat blocks)) /\
    Forall2 (fun w block =>
               block = Spec.normalize (map extracted w) /\
               length block
               = Spec.product (map (fun c => Spec.cardinality (extracted c)) w))
            [[PyList [Str "Ann"]; PyList [Str "x"; Str "y"]];
             [PyList [Str "Bob"]; PyList []]]
            blocks.
Proof.
  apply (cross_product_row_count Examples.xml_engine Mini.insertion_order Examples.xml_rule
           ["name"%string; "tag"%string]).
  - discriminate.
  - apply unique_NoDup. reflexivity.
  - vm_compute. reflexivity.
Defined.

(** C2, a counterexample.  Without references each of the two records has
    the empty product, 1, and the table has no row; with the reference
    [name] requested twice each record has 1 * 1 rows to give and the call
    returns no table. *)
Lemma cross_product_outside_distinct_references :
  @wide_rows Examples.xml_engine Examples.xml_rule [] = Ok [[]; []]
  /\ Spec.product (map (fun c => Spec.cardinality (extracted c)) []) = 1
  /\ @_read_xml Examples.xml_engine Mini.insertion_order Examples.xml_rule []
     = Ok (mkDF [] [])
  /\ @wide_rows Examples.xml_engine Examples.xml_rule ["name"%string; "name"%string]
     = Ok [[PyList [Str "Ann"]; PyList [Str "Ann"]];
           [PyList [Str "Bob"]; PyList [Str "Bob"]]]
  /\ @_read_xml Examples.xml_engine Mini.insertion_order Examples.xml_rule
       ["name"%string; "name"%string]
     = Raise (ValueError "columns must be unique").
Proof.
  repeat split; vm_compute; reflexivity.
Qed.

(** ** Row order *)



(** ** Records with a missing field *)

Lemma dict_set_In_same (r : list (string * value)) (k : string) (v : value) :
  In (k, v) (dict_set r k v).
Proof.
  induction r as [| [k' v'] r IH]; simpl; [now left |].
  destruct (String.eqb k' k) eqn:E.
  - apply String.eqb_eq in E. subst. now left.
  - right. exact IH.
Qed.

Lemma dict_set_In_other (r : list (string * value)) (k k' : string) (x v' : value) :
  k' <> k -> In (k, x) r -> In (k, x) (dict_set r k' v').
Proof.
  intros Hne. induction r as [| [k0 v0] r IH]; simpl; [contradiction |].
  intros [E | Hin].
  - injection E as -> ->. destruct (String.eqb k k') eqn:E.
    + apply String.eqb_eq in E. congruence.
    + now left.
  - destruct (String.eqb k0 k'); right; [exact Hin | now apply IH].
Qed.

Lemma expand_field_rows (acc : list (list (string * value))) (k : string) (vs : list value)
      (r' : list (string * value)) :
  In r' (expand_field acc k vs) ->
  exists r v, In r acc /\ r' = dict_set r k v /\ (vs = [] -> v = PyNone) /\ (vs <> [] -> In v vs).
Proof.
  unfold expand_field. destruct vs as [| v0 vs]; intros H.
  - apply in_map_iff in H. destruct H as (r & <- & Hr).
    exists r, PyNone. repeat split; auto. congruence.
  - apply in_flat_map in H. destruct H as (r & Hr & H).
    apply in_map_iff in H. destruct H as (v & <- & Hv).
    exists r, v. repeat split; auto. discriminate.
Qed.

Lemma expand_fields_keep (k : string) (fields : list (string * list value)) :
  forall acc : list (list (string * value)),
    (forall kvs, In kvs fields -> fst kvs <> k) ->
    (forall r, In r acc -> In (k, PyNone) r) ->
    forall r, In r (fold_left (fun acc kvs => expand_field acc (fst kvs) (snd kvs)) fields acc) ->
              In (k, PyNone) r.
Proof.
  induction fields as [| [k' vs] fields IH]; intros acc Hk Hacc r Hr; simpl in Hr.
  - now apply Hacc.
  - eapply IH; [| | exact Hr].
    + intros kvs Hin. apply Hk. now right.
    + intros r' Hr'. apply expand_field_rows in Hr'.
      destruct Hr' as (r0 & v & Hr0 & -> & _).
      apply dict_set_In_other; [| now apply Hacc].
      apply (Hk (k', vs)). now left.
Qed.

Lemma normalize_none : normalize_hierarchical_data PyNone = [PyNone].
Proof. reflexivity. Qed.

Lemma expand_fields_none (k : string) (d : list (string * value)) :
  NoDup (map fst d) ->
  In (k, PyNone) d ->
  forall (acc : list (list (string * value))) (r : list (string * value)),
    In r (fold_left (fun acc kvs => expand_field acc (fst kvs) (snd kvs))
            (map (fun kv => (fst kv, normalize_hierarchical_data (snd kv))) d) acc) ->
    In (k, PyNone) r.
Proof.
  induction d as [| [k' v'] d IH]; intros Hnd Hin acc r Hr; [contradiction |].
  simpl in Hnd. inversion Hnd as [| x l Hk' Hnd']; subst.
  simpl in Hr. destruct Hin as [E | Hin].
  - injection E as -> ->. rewrite normalize_none in Hr.
    eapply expand_fields_keep; [| | exact Hr].
    + intros kvs Hkvs Heq. apply in_map_iff in Hkvs. destruct Hkvs as (kv & <- & Hkv).
      simpl in Heq. apply Hk'. rewrite <- Heq. now apply in_map.
    + intros r' Hr'. apply expand_field_rows in Hr'.
      destruct Hr' as (r0 & v & _ & -> & _ & Hv).
      destruct (Hv ltac:(discriminate)) as [<- | []]. apply dict_set_In_same.
  - eapply IH; eauto.
Qed.

Lemma remove_nulls_app (a b : list value) :
  remove_nulls (a ++ b)
  = (x <- remove_nulls a ;; y <- remove_nulls b ;; Ok (x ++ y)).
Proof.
  induction a as [| o a IH]; simpl.
  - destruct (remove_nulls b); reflexivity.
  - destruct (has_no_null o) as [keep |]; [| reflexivity]. simpl. rewrite IH.
    destruct (remove_nulls a) as [x |]; [| reflexivity]. simpl.
    destruct (remove_nulls b) as [y |]; simpl.
    + destruct o; try reflexivity. now destruct keep.
    + destruct o; reflexivity.
Qed.

Lemma remove_nulls_all (rs : list (list (string * value))) :
  (forall r, In r rs -> exists k, In (k, PyNone) r) ->
  remove_nulls (map PyDict rs) = Ok [].
Proof.
  induction rs as [| r rs IH]; intros H; [reflexivity |].
  simpl. rewrite IH by (intros r' Hr'; apply H; now right). simpl.
  destruct (H r (or_introl eq_refl)) as (k & Hk).
  assert (E : existsb (fun kv => match snd kv with PyNone => true | _ => false end) r = true).
  { apply existsb_exists. exists (k, PyNone). now split. }
  now rewrite E.
Qed.

(** A record in which the field extractor left [None] for some name gives no
    row to the frame. *)
Lemma incomplete_record_dropped (d : list (string * value)) (k : string)
      (before after : list value) :
  NoDup (map fst d) ->
  In (k, PyNone) d ->
  remove_nulls (normalize_hierarchical_data (PyList (before ++ PyDict d :: after)))
  = remove_nulls (normalize_hierarchical_data (PyList (before ++ after))).
Proof.
  intros Hnd Hin.
  change (normalize_hierarchical_data (PyList ?l)) with (flat_map normalize_hierarchical_data l).
  rewrite !flat_map_app. simpl flat_map. rewrite !remove_nulls_app.
  change (normalize_hierarchical_data (PyDict d))
    with (map PyDict
            (fold_left (fun acc kvs => expand_field acc (fst kvs) (snd kvs))
               (map (fun kv => (fst kv, normalize_hierarchical_data (snd kv))) d) [[]])).
  rewrite remove_nulls_all.
  - destruct (remove_nulls (flat_map normalize_hierarchical_data before)); simpl; [| reflexivity].
    destruct (remove_nulls (flat_map normalize_hierarchical_data after)); reflexivity.
  - intros r Hr. exists k. eapply expand_fields_none; eauto.
Qed.

(** ** Keep-null and drop-incomplete *)

(** C3, as amended.  The readers take no mode: the format decides.  For a
    non-empty list of references without repetition, when selection and
    extraction succeed, [_read_xml] returns a table that keeps every
    selected record, with at least one row, and each row of a record holds
    a null in the column of a reference that matched nothing in it.
    [_read_json] drops a record that carries [None] under one of its names
    in the result of the JSONPath expression: the table is the one of the
    other records. *)
Theorem missing_reference_by_format :
  forall (X : XmlEngine) (J : JsonEngine) (hash_order : SetOrder)
         (mapping_rule : MappingRule) (references : list string),
    (forall wide,
        references <> [] ->
        NoDup references ->
        wide_rows mapping_rule references = Ok wide ->
        exists blocks : list (list (list cell)),
          _read_xml hash_order mapping_rule references
          = Ok (mkDF references (concat blocks)) /\
          Forall2 (fun w block =>
                     block <> [] /\
                     forall row i,
                       In row block ->
                       nth_error w i = Some (PyList []) ->
                       nth_error row i = Some NaN)
                  wide blocks) /\
    (forall data before d after k,
        json_load (data_source mapping_rule) = Ok data ->
        JSONPath_parse (jsonpath_expression mapping_rule references) data
        = Ok (before ++ PyDict d :: after) ->
        NoDup (map fst d) ->
        In (k, PyNone) d ->
        _read_json hash_order mapping_rule references
        = (json_objects <- remove_nulls (normalize_hierarchical_data (PyList (before ++ after))) ;;
           Ok (json_table hash_order references json_objects))).
Proof.
  intros X J h rule refs. split.
  - intros wide Hne Hnd Hw.
    exists (map (fun w => Spec.normalize (map extracted w)) wide). split.
    + rewrite (read_xml_of_wide h rule refs wide Hw).
      destruct refs as [| r refs]; [contradiction |].
      now rewrite (proj2 (unique_NoDup (r :: refs)) Hnd).
    + clear. induction wide as [| w wide IH]; simpl; constructor; [| exact IH].
      split.
      * intros E. apply (f_equal (@length _)) in E. rewrite normalize_length in E.
        pose proof (product_positive (map extracted w)). simpl in E. lia.
      * intros row i Hrow Hi. eapply normalize_absent; eauto.
  - intros data before d after k Hload Hparse Hnd Hin.
    rewrite read_json_of_records. unfold json_records.
    rewrite Hload. cbn [bind]. rewrite Hparse. cbn [bind].
    now rewrite (incomplete_record_dropped d k before after Hnd Hin).
Qed.

(** C3, a counterexample.  On the two records of the example, Ann with two
    tags and Bob with none, [_read_xml] returns the three rows of keep-null;
    the two rows of drop-incomplete are another table, and [_read_xml] has
    no argument by which its caller could ask for them. *)
Lemma mode_is_fixed_by_format :
  @_read_xml Examples.xml_engine Mini.insertion_order Examples.xml_rule
    ["name"%string; "tag"%string]
  = Ok (mkDF ["name"%string; "tag"%string] Examples.keep_null_rows)
  /\ Spec.build (map (Spec.record_rows Spec.KeepNull) Examples.people_wide)
     = Examples.keep_null_rows
  /\ Spec.build (map (Spec.record_rows Spec.DropIncomplete) Examples.people_wide)
     = Examples.drop_incomplete_rows
  /\ Examples.keep_null_rows <> Examples.drop_incomplete_rows
  /\ (forall h : SetOrder,
        @_read_xml Examples.xml_engine h Examples.xml_rule ["name"%string; "tag"%string]
        = Ok (mkDF ["name"%string; "tag"%string] Examples.keep_null_rows)).
Proof.
  repeat split; try (vm_compute; reflexivity); try discriminate.
  intros h.
  rewrite (read_xml_of_wide h Examples.xml_rule ["name"%string; "tag"%string]
             [[PyList [Str "Ann"]; PyList [Str "x"; Str "y"]];
              [PyList [Str "Bob"]; PyList []]]); vm_compute; reflexivity.
Qed.

(** ** Empty match *)

Lemma set_difference_nothing (hash_order : SetOrder) (l : list string) :
  NoDup l -> Permutation (set_difference hash_order l []) l.
Proof.
  intros H. unfold set_difference.
  assert (E : filter (fun x => negb (mem x [])) l = l).
  { clear. induction l as [| x l IH]; [reflexivity |].
    simpl in *. now rewrite IH. }
  rewrite E, (nodup_fixed_point string_dec H). apply arrange_perm.
Qed.

(** X17.  When the iterator selects nothing: [_read_xml], for a list of
    references without repetition, returns the table with the requested
    columns and no row; [_read_json], for any list of references, returns a
    table with no row whose columns are the requested references, each
    once. *)
Theorem empty_match_gives_empty_table :
  forall (X : XmlEngine) (J : JsonEngine) (hash_order : SetOrder)
         (mapping_rule : MappingRule) (references : list string),
    (forall root,
        NoDup references ->
        ET_parse (data_source mapping_rule) = Ok root ->
        iter_select root (iterator mapping_rule) = Ok [] ->
        _read_xml hash_order mapping_rule references = Ok (mkDF references [])) /\
    (forall data,
        json_load (data_source mapping_rule) = Ok data ->
        JSONPath_parse (jsonpath_expression mapping_rule references) data = Ok [] ->
        exists cols,
          _read_json hash_order mapping_rule references = Ok (mkDF cols []) /\
          NoDup cols /\
          forall r, In r cols <-> In r references).
Proof.
  intros X J h rule refs. split.
  - intros root Hnd Hroot Hsel.
    assert (Hw : wide_rows rule refs = Ok []).
    { unfold wide_rows. rewrite Hroot. simpl. rewrite Hsel. reflexivity. }
    rewrite (read_xml_of_wide h rule refs [] Hw).
    destruct refs as [| r refs]; [reflexivity |].
    now rewrite (proj2 (unique_NoDup (r :: refs)) Hnd).
  - intros data Hload Hparse.
    exists (set_difference h refs []). split; [| split].
    + rewrite read_json_of_records. unfold json_records.
      rewrite Hload. simpl. rewrite Hparse. simpl.
      now rewrite json_table_shape.
    + apply set_difference_NoDup.
    + intros r. rewrite set_difference_In. simpl. tauto.
Qed.

Lemma empty_match_gives_empty_table_people :
  @_read_xml Examples.xml_engine Mini.insertion_order Examples.xml_rule_no_match
    ["name"%string; "tag"%string]
  = Ok (mkDF ["name"%string; "tag"%string] [])
  /\ exists cols,
       @_read_json Examples.json_engine Mini.reversed_order Examples.json_rule_no_match
         ["name"%string; "tag"%string; "name"%string]
       = Ok (mkDF cols [])
       /\ NoDup cols
       /\ forall r, In r cols <-> In r ["name"%string; "tag"%string; "name"%string].
Proof.
  split.
  - apply (proj1 (empty_match_gives_empty_table Examples.xml_engine Examples.json_engine
                    Mini.insertion_order Examples.xml_rule_no_match
                    ["name"%string; "tag"%string])
             Examples.people_xml).
    + apply unique_NoDup. reflexivity.
    + reflexivity.
    + reflexivity.
  - apply (proj2 (empty_match_gives_empty_table Examples.xml_engine Examples.json_engine
                    Mini.reversed_order Examples.json_rule_no_match
                    ["name"%string; "tag"%string; "name"%string])
             Examples.people_json); reflexivity.
Defined.

(** C5.  The failing input: the iterator selects nothing and the reference
    [name] is requested twice.  [_read_xml] builds a frame with a repeated
    label, [explode] refuses it and the call fails; [_read_json], which
    takes the references as a set, returns the empty table. *)
Lemma empty_match_with_repeated_reference :
  @iter_select Examples.xml_engine Examples.people_xml "/root/nothing"%string = Ok []
  /\ @_read_xml Examples.xml_engine Mini.insertion_order Examples.xml_rule_no_match
       ["name"%string; "name"%string]
     = Raise (ValueError "columns must be unique")
  /\ @_read_json Examples.json_engine Mini.insertion_order Examples.json_rule_no_match
       ["name"%string; "name"%string]
     = Ok (mkDF ["name"%string] []).
Proof.
  repeat split; vm_compute; reflexivity.
Qed.

(** ** Global absence *)

Lemma Forall2_nth_error_l {A B : Type} (P : A -> B -> Prop) (l : list A) (l' : list B)
      (i : nat) (x : A) :
  Forall2 P l l' -> nth_error l i = Some x -> exists y, nth_error l' i = Some y /\ P x y.
Proof.
  intros H. revert i. induction H as [| a b l l' Hab _ IH]; intros i Hi.
  - destruct i; discriminate.
  - destruct i as [| i]; simpl in *.
    + injection Hi as ->. now exists b.
    + now apply IH.
Qed.

Lemma Forall2_In_r {A B : Type} (P : A -> B -> Prop) (l : list A) (l' : list B) (y : B) :
  Forall2 P l l' -> In y l' -> exists x, In x l /\ P x y.
Proof.
  induction 1 as [| a b l l' Hab _ IH]; intros Hin; [contradiction |].
  destruct Hin as [<- | Hin].
  - exists a. split; [now left | assumption].
  - destruct (IH Hin) as (x & Hx & Hp). exists x. split; [now right | assumption].
Qed.

Lemma dict_get_None (r : list (string * value)) (k : string) :
  dict_get r k = None -> ~ In k (map fst r).
Proof.
  induction r as [| [k' v'] r IH]; simpl; [tauto |].
  destruct (String.eqb k' k) eqn:E; [discriminate |].
  apply String.eqb_neq in E. intros H [Hk | Hin]; [congruence | now apply IH].
Qed.

Lemma add_keys_In (r : list (string * value)) :
  forall (acc : list string) (k : string),
    In k (fold_left (fun acc' kv => if mem (fst kv) acc' then acc' else acc' ++ [fst kv]) r acc) ->
    In k acc \/ In k (map fst r).
Proof.
  induction r as [| [k' v'] r IH]; intros acc k H; simpl in *; [now left |].
  apply IH in H. destruct H as [H | H]; [| right; now right].
  destruct (mem k' acc); [now left |].
  apply in_app_or in H. destruct H as [H | [<- | []]]; [now left | right; now left].
Qed.

Lemma union_keys_In (records : list (list (string * value))) (k : string) :
  In k (union_keys records) -> exists r, In r records /\ In k (map fst r).
Proof.
  unfold union_keys.
  assert (G : forall acc,
             In k (fold_left
                     (fun acc r =>
                        fold_left (fun acc' kv => if mem (fst kv) acc' then acc'
                                                  else acc' ++ [fst kv]) r acc)
                     records acc) ->
             In k acc \/ exists r, In r records /\ In k (map fst r)).
  { induction records as [| r records IH]; intros acc H; simpl in *; [now left |].
    apply IH in H. destruct H as [H | (r' & Hr' & Hk)].
    - apply add_keys_In in H. destruct H as [H | H]; [now left |].
      right. exists r. split; [now left | assumption].
    - right. exists r'. split; [now right | assumption]. }
  intros H. apply G in H. destruct H as [[] | H]. exact H.
Qed.

(** X18.  A reference [R] of the list that matches nothing in any record
    does not make the readers fail, and every row of the table holds a null
    in the column [R]: with [_read_xml] for a list of references without
    repetition, when every extraction succeeds; with [_read_json] for any
    list, when no record that reaches the frame has an entry under [R]. *)
Theorem absent_reference_gives_null_column :
  forall (X : XmlEngine) (J : JsonEngine) (hash_order : SetOrder)
         (mapping_rule : MappingRule) (references : list string) (R : string),
    In R references ->
    (forall root records wide,
        NoDup references ->
        ET_parse (data_source mapping_rule) = Ok root ->
        iter_select root (iterator mapping_rule) = Ok records ->
        (forall e, In (XElem e) records -> findall e R = Ok []) ->
        wide_rows mapping_rule references = Ok wide ->
        exists df,
          _read_xml hash_order mapping_rule references = Ok df /\
          forall row, In row (rows df) -> cell_at df R row = Some NaN) /\
    (forall json_objects,
        json_records mapping_rule references = Ok json_objects ->
        (forall o, In o json_objects -> dict_get (flat_record o) R = None) ->
        exists df,
          _read_json hash_order mapping_rule references = Ok df /\
          forall row, In row (rows df) -> cell_at df R row = Some NaN).
Proof.
  intros X J h rule refs R HR. split.
  - intros root records wide Hnd Hroot Hsel Habsent Hw.
    rewrite (read_xml_of_wide h rule refs wide Hw).
    destruct refs as [| r refs]; [contradiction |].
    rewrite (proj2 (unique_NoDup (r :: refs)) Hnd).
    eexists. split; [reflexivity |]. simpl rows. intros row Hrow.
    unfold cell_at. simpl columns.
    destruct (index_of_In R (r :: refs) HR) as (i & Hi). rewrite Hi.
    unfold Spec.build in Hrow. apply in_concat in Hrow.
    destruct Hrow as (block & Hblock & Hrow).
    apply in_map_iff in Hblock. destruct Hblock as (w & <- & Hwin).
    eapply normalize_absent; [exact Hrow |].
    unfold wide_rows in Hw. rewrite Hroot in Hw. simpl in Hw. rewrite Hsel in Hw.
    simpl in Hw. apply mapM_Forall2 in Hw.
    destruct (Forall2_In_r _ _ _ _ Hw Hwin) as (item & Hitem & Htexts).
    destruct item as [e | s]; [| discriminate].
    unfold record_texts in Htexts. apply mapM_Forall2 in Htexts.
    destruct (Forall2_nth_error_l _ _ _ i R Htexts (index_of_Some _ _ _ Hi))
      as (c & Hc & Hrc).
    unfold reference_texts in Hrc. rewrite (Habsent e Hitem) in Hrc.
    simpl in Hrc. injection Hrc as <-. exact Hc.
  - intros objs Hrec Habsent.
    rewrite read_json_of_records, Hrec. simpl bind.
    eexists. split; [reflexivity |]. rewrite json_table_shape. cbv zeta.
    pose proof (json_normalize_well_formed objs) as Hwf.
    unfold well_formed in Hwf. rewrite Forall_forall in Hwf.
    assert (Hfresh : ~ In R (columns (json_normalize objs))).
    { intros Hin. simpl in Hin. apply union_keys_In in Hin.
      destruct Hin as (r' & Hr' & Hk). apply in_map_iff in Hr'.
      destruct Hr' as (o & <- & Ho). now apply (dict_get_None _ _ (Habsent o Ho)). }
    assert (Hmiss : In R (set_difference h refs (columns (json_normalize objs))))
      by (apply set_difference_In; now split).
    remember (json_normalize objs) as jdf eqn:Ejdf. clear Ejdf.
    cbn [rows columns]. intros row Hrow. unfold cell_at. cbn [columns].
    apply in_map_iff in Hrow. destruct Hrow as (r0 & <- & Hr0).
    rewrite index_of_app. rewrite (proj2 (index_of_None _ _) Hfresh).
    destruct (index_of_In _ _ Hmiss) as (j & Hj). rewrite Hj. cbn [option_map].
    apply nth_error_padded.
    + rewrite (Hwf r0 Hr0). lia.
    + rewrite (Hwf r0 Hr0). apply index_of_lt in Hj. lia.
Qed.

Lemma absent_reference_gives_null_column_examples :
  (exists df,
      @_read_xml Examples.xml_engine Mini.insertion_order Examples.xml_rule
        ["name"%string; "missing"%string] = Ok df /\
      forall row, In row (rows df) -> cell_at df "missing" row = Some NaN)
  /\ (exists df,
         @_read_json Examples.json_engine Mini.insertion_order Examples.works_rule
           ["id"%string; "creator.city"%string; "id"%string] = Ok df /\
         forall row, In row (rows df) -> cell_at df "creator.city" row = Some NaN).
Proof.
  split.
  - apply (proj1 (absent_reference_gives_null_column
                    Examples.xml_engine Examples.json_engine Mini.insertion_order
                    Examples.xml_rule ["name"%string; "missing"%string] "missing"%string
                    ltac:(right; left; reflexivity))
             Examples.people_xml
             (map XElem (Mini.children_of Examples.people_xml))
             [[PyList [Str "Ann"]; PyList []]; [PyList [Str "Bob"]; PyList []]]).
    + apply unique_NoDup. reflexivity.
    + reflexivity.
    + vm_compute. reflexivity.
    + intros e [E | [E | []]]; injection E as <-; vm_compute; reflexivity.
    + vm_compute. reflexivity.
  - apply (proj2 (absent_reference_gives_null_column
                    Examples.xml_engine Examples.json_engine Mini.insertion_order
                    Examples.works_rule ["id"%string; "creator.city"%string; "id"%string]
                    "creator.city"%string
                    ltac:(right; left; reflexivity))
             [[("id"%string, Num "1");
               ("creator"%string, PyDict [("name"%string, Str "Ann"); ("age"%string, Num "7")])]]).
    + vm_compute. reflexivity.
    + intros o [<- | []]. vm_compute. reflexivity.
Defined.


(** ** Errors of the path libraries *)




(** The same reference with a selected record, and an iterator that is not
    an XPath 2.0 expression. *)
Example rejected_paths_with_records :
  @_read_xml Examples.xml_engine Mini.insertion_order Examples.xml_rule
    ["name"%string; "/tag"%string]
  = Raise (SyntaxError "cannot use absolute path on element")
  /\ @_read_xml Examples.xml_engine Mini.insertion_order Examples.xml_rule_bad_iterator
       ["name"%string]
     = Raise (PyExn "ElementPathSyntaxError" "unexpected '['").
Proof.
  split; vm_compute; reflexivity.
Qed.

(** ** Determinism *)

Lemma mem_same_labels (a b : list string) (x : string) :
  (forall y, In y a <-> In y b) -> mem x a = mem x b.
Proof.
  intros H. destruct (mem x a) eqn:Ea, (mem x b) eqn:Eb; try reflexivity.
  - apply mem_In in Ea. apply H in Ea. apply mem_In in Ea. congruence.
  - apply mem_In in Eb. apply H in Eb. apply mem_In in Eb. congruence.
Qed.

(** C8, as amended.  The table of [_read_xml] does not depend on the order
    in which the interpreter iterates over sets.  Under two such orders
    [_read_json] fails with the same exception or returns two tables with
    the same labels, the same number of rows and the same cells under every
    label: they differ at most in the order of their columns. *)
Theorem extraction_up_to_set_order :
  forall (X : XmlEngine) (J : JsonEngine) (h1 h2 : SetOrder)
         (mapping_rule : MappingRule) (references : list string),
    _read_xml h1 mapping_rule references = _read_xml h2 mapping_rule references /\
    match _read_json h1 mapping_rule references, _read_json h2 mapping_rule references with
    | Ok d1, Ok d2 =>
        Permutation (columns d1) (columns d2) /\
        length (rows d1) = length (rows d2) /\
        forall key, column_values d1 key = column_values d2 key
    | Raise e1, Raise e2 => e1 = e2
    | _, _ => False
    end.
Proof.
  intros X J h1 h2 rule refs. split.
  - destruct (wide_rows rule refs) as [wide | e] eqn:Hw.
    + now rewrite !(read_xml_of_wide _ rule refs wide Hw).
    + now rewrite !(read_xml_raises _ rule refs e Hw).
  - rewrite !read_json_of_records.
    destruct (json_records rule refs) as [objs | e]; simpl; [| reflexivity].
    rewrite !json_table_shape. cbv zeta.
    pose proof (json_normalize_well_formed objs) as Hwf. unfold well_formed in Hwf.
    pose proof (set_difference_orders h1 h2 refs (columns (json_normalize objs))) as Hperm.
    remember (json_normalize objs) as jdf eqn:Ejdf. clear Ejdf.
    cbn [columns rows]. repeat split.
    + now apply Permutation_app_head.
    + now rewrite !length_map.
    + intros key. rewrite !column_values_padded by assumption.
      destruct (index_of key (columns jdf)); [reflexivity |].
      rewrite (mem_same_labels _ (set_difference h2 refs (columns jdf))); [reflexivity |].
      intros y. split; apply Permutation_in; [assumption | now apply Permutation_sym].
Qed.

(** C8, a counterexample.  Two runs on the same document, iterator and
    references, in interpreters that iterate over the set of the missing
    references in different orders, return tables with different columns. *)
Lemma json_columns_follow_set_order :
  @_read_json Examples.json_engine Mini.insertion_order Examples.json_rule_no_match
    ["name"%string; "tag"%string]
  = Ok (mkDF ["name"%string; "tag"%string] [])
  /\ @_read_json Examples.json_engine Mini.reversed_order Examples.json_rule_no_match
       ["name"%string; "tag"%string]
     = Ok (mkDF ["tag"%string; "name"%string] []).
Proof.
  split; vm_compute; reflexivity.
Qed.

(** ** Flat formats *)

Lemma keep_columns_labels (cols : list string) (df kept : DataFrame) :
  Mini.keep_columns cols df = Ok kept -> same_labels (columns kept) cols.
Proof.
  unfold Mini.keep_columns.
  destruct (forallb (fun c => mem c (columns df)) cols) eqn:E; [| discriminate].
  intros H. injection H as <-. simpl. intros x. rewrite filter_In, mem_In. split.
  - tauto.
  - intros Hx. split; [| assumption].
    rewrite forallb_forall in E. apply mem_In. now apply E.
Qed.

Lemma as_text_is_str (c : cell) : is_str (Mini.as_text c) = true.
Proof.
  destruct c as [| | s | lit | [|] | l | d]; reflexivity.
Qed.

Lemma read_text_contract (files : list (string * DataFrame)) (p : string) :
  selects_text (Mini.read_text files p).
Proof.
  intros o df. unfold Mini.read_text.
  destruct (Mini.lookup p files) as [stored |]; [| discriminate].
  destruct (Mini.keep_columns (usecols o) stored) as [kept |] eqn:E; [| discriminate].
  simpl. intros H. injection H as <-. split.
  - apply keep_columns_labels in E. now destruct (dtype_str o && negb (na_filter o)).
  - intros Hd Hn. rewrite Hd, Hn. simpl. unfold all_strings. simpl.
    apply Forall_forall. intros r Hr. apply in_map_iff in Hr. destruct Hr as (r0 & <- & _).
    apply Forall_forall. intros c Hc. apply in_map_iff in Hc. destruct Hc as (c0 & <- & _).
    apply as_text_is_str.
Qed.

Lemma read_columns_contract (files : list (string * DataFrame)) (p : string) :
  selects (Mini.read_columns files p).
Proof.
  intros cols df. unfold Mini.read_columns.
  destruct (Mini.lookup p files) as [stored |]; [| discriminate].
  apply keep_columns_labels.
Qed.

Lemma mini_flat_contract (files : list (string * DataFrame)) : Contract (Mini.flat files).
Proof.
  constructor; simpl; intros;
    first [apply read_text_contract | apply read_columns_contract].
Qed.

(** C9, as amended.  With libraries that honour their column selection and
    their text options: the readers of CSV, TSV, Excel and ODS files return
    the requested columns with strings in every cell; the readers of
    Parquet, Feather, ORC, Stata and SPSS files return the requested
    columns. *)
Theorem flat_readers_select_references :
  forall (L : FlatLib),
    Contract L ->
    forall (mapping_rule : MappingRule) (references : list string)
           (file_source_type : string) (df : DataFrame),
      (_read_csv mapping_rule references file_source_type = Ok df ->
       same_labels (columns df) references /\ all_strings df) /\
      (_read_excel mapping_rule references = Ok df ->
       same_labels (columns df) references /\ all_strings df) /\
      (_read_ods mapping_rule references = Ok df ->
       same_labels (columns df) references /\ all_strings df) /\
      (_read_parquet mapping_rule references = Ok df -> same_labels (columns df) references) /\
      (_read_feather mapping_rule references = Ok df -> same_labels (columns df) references) /\
      (_read_orc mapping_rule references = Ok df -> same_labels (columns df) references) /\
      (_read_stata mapping_rule references = Ok df -> same_labels (columns df) references) /\
      (_read_spss mapping_rule references = Ok df -> same_labels (columns df) references).
Proof.
  intros L HL rule refs t df.
  assert (Htext : forall read : TextOptions -> result DataFrame,
             selects_text read ->
             (cdf <- read (mkTextOptions refs true false false) ;; Ok cdf) = Ok df ->
             same_labels (columns df) refs /\ all_strings df).
  { intros read Hread H. apply bind_ok_inv in H. destruct H as (cdf & Hcdf & H).
    injection H as <-. destruct (Hread _ _ Hcdf) as [Hl Hs]. split; [exact Hl |].
    now apply Hs. }
  assert (Hcols : forall read : list string -> result DataFrame,
             selects read ->
             (cdf <- read refs ;; Ok cdf) = Ok df -> same_labels (columns df) refs).
  { intros read Hread H. apply bind_ok_inv in H. destruct H as (cdf & Hcdf & H).
    injection H as <-. now apply Hread. }
  repeat match goal with |- _ /\ _ => split end.
  - apply Htext. apply (csv_contract L HL).
  - apply Htext. apply (excel_contract L HL).
  - apply Htext. apply (excel_contract L HL).
  - unfold _read_parquet. intros H. now apply (parquet_contract L HL) in H.
  - unfold _read_feather. intros H. now apply (feather_contract L HL) in H.
  - unfold _read_orc. intros H. now apply (orc_contract L HL) in H.
  - apply Hcols. apply (stata_contract L HL).
  - apply Hcols. apply (spss_contract L HL).
Qed.

Lemma flat_readers_select_references_measurements :
  (same_labels ["id"%string] ["id"%string] /\
   all_strings (mkDF ["id"%string] [[Str "1"]; [Str "2"]])) /\
  same_labels ["id"%string] ["id"%string].
Proof.
  pose proof (flat_readers_select_references Examples.flat_engine
                (mini_flat_contract _) Examples.csv_rule ["id"%string] "CSV"%string
                (mkDF ["id"%string] [[Str "1"]; [Str "2"]])) as Hcsv.
  pose proof (flat_readers_select_references Examples.flat_engine
                (mini_flat_contract _) Examples.parquet_rule ["id"%string] "PARQUET"%string
                (mkDF ["id"%string] [[Num "1"]; [Num "2"]])) as Hparquet.
  split.
  - apply (proj1 Hcsv). vm_compute. reflexivity.
  - apply (proj1 (proj2 (proj2 (proj2 Hparquet)))). vm_compute. reflexivity.
Defined.

(** C9, a counterexample.  [_read_sas] does not pass the references on: the
    table has every column of the file; and the reader of Parquet files has
    no text options: the cells keep the types of the file. *)
Lemma flat_readers_beyond_request :
  @_read_sas Examples.flat_engine Examples.sas_rule ["id"%string]
  = Ok (mkDF ["id"%string; "value"%string] [[Num "1"; Num "20"]; [Num "2"; Num "30"]])
  /\ @_read_parquet Examples.flat_engine Examples.parquet_rule ["id"%string]
     = Ok (mkDF ["id"%string] [[Num "1"]; [Num "2"]]).
Proof.
  split; vm_compute; reflexivity.
Qed.

(** ** Unknown source types *)

(** C10.  For a mapping rule whose source type has no branch in
    [get_file_data], the call raises the [ValueError] that names the source
    type, whatever the libraries and the files are: no reader is called. *)
Theorem unknown_source_type_raises :
  forall (L : FlatLib) (J : JsonEngine) (X : XmlEngine) (K : Constants)
         (hash_order : SetOrder) (mapping_rule : MappingRule) (references : list string),
    ~ recognised K (source_type mapping_rule) ->
    get_file_data K hash_order mapping_rule references
    = Raise (ValueError (invalid_source_type (source_type mapping_rule))).
Proof.
  intros L J X K h rule refs Hun. unfold get_file_data.
  unfold recognised in Hun.
  destruct (mem (source_type rule) [CSV K; TSV K]) eqn:E1.
  { exfalso. apply Hun. apply mem_In in E1. destruct E1 as [E | [E | []]]; auto. }
  destruct (mem (source_type rule) (EXCEL K)) eqn:E2.
  { exfalso. apply Hun. apply mem_In in E2. tauto. }
  destruct (mem (source_type rule) (ODS K)) eqn:E3.
  { exfalso. apply Hun. apply mem_In in E3. tauto. }
  destruct (String.eqb (source_type rule) (PARQUET K)) eqn:E4.
  { exfalso. apply Hun. apply String.eqb_eq in E4. tauto. }
  destruct (mem (source_type rule) (FEATHER K)) eqn:E5.
  { exfalso. apply Hun. apply mem_In in E5. tauto. }
  destruct (String.eqb (source_type rule) (ORC K)) eqn:E6.
  { exfalso. apply Hun. apply String.eqb_eq in E6. tauto. }
  destruct (String.eqb (source_type rule) (STATA K)) eqn:E7.
  { exfalso. apply Hun. apply String.eqb_eq in E7. tauto. }
  destruct (mem (source_type rule) (SAS K)) eqn:E8.
  { exfalso. apply Hun. apply mem_In in E8. tauto. }
  destruct (String.eqb (source_type rule) (SPSS K)) eqn:E9.
  { exfalso. apply Hun. apply String.eqb_eq in E9. tauto. }
  destruct (String.eqb (source_type rule) (JSON K)) eqn:E10.
  { exfalso. apply Hun. apply String.eqb_eq in E10. tauto. }
  destruct (String.eqb (source_type rule) (XML K)) eqn:E11.
  { exfalso. apply Hun. apply String.eqb_eq in E11. tauto. }
  reflexivity.
Qed.

Lemma unknown_source_type_raises_yaml :
  @get_file_data Examples.flat_engine Examples.json_engine Examples.xml_engine
    Examples.constants Mini.insertion_order Examples.yaml_rule ["id"%string]
  = Raise (ValueError "Found an invalid source type. Found value `YAML`.").
Proof.
  apply (unknown_source_type_raises Examples.flat_engine Examples.json_engine
           Examples.xml_engine Examples.constants Mini.insertion_order
           Examples.yaml_rule ["id"%string]).
  unfold recognised. simpl.
  intros H.
  repeat match goal with
         | H : _ \/ _ |- _ => destruct H as [H | H]
         end; try discriminate H; contradiction.
Defined.

(** ** Further properties of the readers *)

(** X1.  When selection and extraction succeed and a reference is requested
    more than once, [_read_xml] fails with the [ValueError] of [explode]. *)
Theorem repeated_reference_is_refused :
  forall (X : XmlEngine) (hash_order : SetOrder) (mapping_rule : MappingRule)
         (references : list string) (wide : list (list cell)),
    wide_rows mapping_rule references = Ok wide ->
    ~ NoDup references ->
    _read_xml hash_order mapping_rule references
    = Raise (ValueError "columns must be unique").
Proof.
  intros X h rule refs wide Hw Hdup.
  rewrite (read_xml_of_wide h rule refs wide Hw).
  destruct refs as [| r refs]; [exfalso; apply Hdup; constructor |].
  destruct (unique (r :: refs)) eqn:Hu; [| reflexivity].
  exfalso. apply Hdup. now apply unique_NoDup.
Qed.

Lemma repeated_reference_is_refused_people :
  @_read_xml Examples.xml_engine Mini.insertion_order Examples.xml_rule
    ["tag"%string; "name"%string; "tag"%string]
  = Raise (ValueError "columns must be unique").
Proof.
  apply (repeated_reference_is_refused Examples.xml_engine Mini.insertion_order
           Examples.xml_rule ["tag"%string; "name"%string; "tag"%string]
           [[PyList [Str "x"; Str "y"]; PyList [Str "Ann"]; PyList [Str "x"; Str "y"]];
            [PyList []; PyList [Str "Bob"]; PyList []]]).
  - vm_compute. reflexivity.
  - intros H. apply unique_NoDup in H. discriminate H.
Defined.

(** X2.  Without references [_read_xml] returns the frame without columns
    and without rows, whatever the iterator selects. *)
Theorem without_references_no_rows :
  forall (X : XmlEngine) (hash_order : SetOrder) (mapping_rule : MappingRule)
         (root : element) (records : list (xitem element)),
    ET_parse (data_source mapping_rule) = Ok root ->
    iter_select root (iterator mapping_rule) = Ok records ->
    _read_xml hash_order mapping_rule [] = Ok empty_frame.
Proof.
  intros X h rule root records Hroot Hsel.
  assert (Hw : wide_rows rule [] = Ok (map (fun _ => []) records)).
  { unfold wide_rows. rewrite Hroot. simpl. rewrite Hsel. simpl.
    apply Forall2_mapM. clear. induction records as [| e records IH]; simpl.
    - constructor.
    - constructor; [now destruct e | exact IH]. }
  now rewrite (read_xml_of_wide h rule [] _ Hw).
Qed.

Lemma without_references_no_rows_people :
  @_read_xml Examples.xml_engine Mini.insertion_order Examples.xml_rule [] = Ok empty_frame.
Proof.
  apply (without_references_no_rows Examples.xml_engine Mini.insertion_order
           Examples.xml_rule Examples.people_xml
           (map XElem (Mini.children_of Examples.people_xml))).
  - reflexivity.
  - vm_compute. reflexivity.
Defined.

Lemma append_assoc' (a b c : string) : ((a ++ b) ++ c = a ++ (b ++ c))%string.
Proof.
  induction a as [| x a IH]; simpl; [reflexivity | now rewrite IH].
Qed.

Lemma drop_last_append (s : string) (c : ascii) :
  drop_last (s ++ String c EmptyString) = s.
Proof.
  induction s as [| x s IH]; simpl; [reflexivity |].
  rewrite IH. destruct s; reflexivity.
Qed.

Lemma expression_loop (f : string -> string) (rs : list string) :
  forall (r : string) (e : string),
    fold_left (fun e reference => (e ++ f reference ++ ",")%string) (r :: rs) e
    = (e ++ String.concat "," (map f (r :: rs)) ++ ",")%string.
Proof.
  induction rs as [| r' rs IH]; intros r e.
  - reflexivity.
  - change (fold_left ?g (r :: r' :: rs) e)
      with (fold_left g (r' :: rs) (e ++ f r ++ ",")%string).
    rewrite IH. change (map f (r :: r' :: rs)) with (f r :: map f (r' :: rs)).
    change (String.concat "," (f r :: map f (r' :: rs)))
      with (f r ++ "," ++ String.concat "," (map f (r' :: rs)))%string.
    now rewrite !append_assoc'.
Qed.

(** X3.  For a non-empty list of references the JSONPath expression is the
    iterator followed by a field extractor over the top-level names of the
    references, in their order and separated by commas. *)
Theorem jsonpath_expression_joined :
  forall (mapping_rule : MappingRule) (references : list string),
    references <> [] ->
    jsonpath_expression mapping_rule references
    = (iterator mapping_rule ++ ".(" ++
       String.concat "," (map split_dot_head references) ++ ")")%string.
Proof.
  intros rule [| r rs] Hne; [contradiction |].
  unfold jsonpath_expression. rewrite expression_loop.
  rewrite <- !append_assoc'. rewrite drop_last_append.
  now rewrite !append_assoc'.
Qed.

Lemma jsonpath_expression_joined_people :
  jsonpath_expression Examples.works_rule ["creator.name"%string; "id"%string]
  = "$.*.(creator,id)"%string.
Proof.
  apply (jsonpath_expression_joined Examples.works_rule
           ["creator.name"%string; "id"%string]).
  discriminate.
Defined.

(** X4.  For the empty list of references the removal of the last character
    takes the opening parenthesis: the expression is the iterator followed
    by [.)]. *)
Theorem jsonpath_expression_without_references :
  forall mapping_rule : MappingRule,
    jsonpath_expression mapping_rule [] = (iterator mapping_rule ++ ".)")%string.
Proof.
  intros rule. unfold jsonpath_expression. simpl fold_left.
  change ".("%string with ("." ++ "(")%string.
  rewrite <- append_assoc'. rewrite drop_last_append. now rewrite append_assoc'.
Qed.

(** X5.  The top-level name of a reference has no dot, and the reference is
    that name, followed by nothing or by a dot and the rest. *)
Theorem split_dot_head_prefix :
  forall reference : string,
    (forall c, In c (list_ascii_of_string (split_dot_head reference)) -> c <> "."%char) /\
    exists rest,
      reference = (split_dot_head reference ++ rest)%string /\
      (rest = EmptyString \/ exists t, rest = String "." t).
Proof.
  induction reference as [| x s [IHdot (rest & IHeq & IHrest)]]; simpl.
  - split; [intros c [] |]. exists EmptyString. split; [reflexivity | now left].
  - destruct (Ascii.eqb x ".") eqn:E.
    + apply Ascii.eqb_eq in E. subst x. split; [intros c [] |].
      exists (String "." s). split; [reflexivity |]. right. now exists s.
    + apply Ascii.eqb_neq in E. split.
      * simpl. intros c [<- | Hc]; [exact E | now apply IHdot].
      * exists rest. split; [| exact IHrest]. simpl. now rewrite <- IHeq.
Qed.

Lemma has_no_null_complete (d : list (string * value)) :
  existsb (fun kv => match snd kv with PyNone => true | _ => false end) d = false
  <-> complete d.
Proof.
  unfold complete. split.
  - intros H k v Hin ->.
    assert (E : existsb (fun kv => match snd kv with PyNone => true | _ => false end) d = true)
      by (apply existsb_exists; exists (k, PyNone); now split).
    congruence.
  - intros H.
    destruct (existsb (fun kv => match snd kv with PyNone => true | _ => false end) d) eqn:E;
      [| reflexivity].
    apply existsb_exists in E. destruct E as ([k v] & Hin & Hv). simpl in Hv.
    destruct v; try discriminate. exfalso. now apply (H k PyNone Hin).
Qed.

Lemma remove_nulls_kept (objects : list value) :
  forall kept,
    remove_nulls objects = Ok kept ->
    forall d, In d kept <-> In (PyDict d) objects /\ complete d.
Proof.
  induction objects as [| o objects IH]; intros kept H d; simpl in H.
  - injection H as <-. simpl. tauto.
  - apply bind_ok_inv in H. destruct H as (keep & Hkeep & H).
    apply bind_ok_inv in H. destruct H as (rest & Hrest & H).
    specialize (IH rest Hrest d).
    destruct o as [| | s | lit | b | l | d0]; try discriminate Hkeep.
    simpl in Hkeep. injection Hkeep as <-. injection H as <-.
    destruct (existsb (fun kv => match snd kv with PyNone => true | _ => false end) d0) eqn:E;
      simpl.
    + rewrite IH. split; [intros [H1 H2]; split; [now right | assumption] |].
      intros [[Heq | Hin] Hc]; [| now split].
      injection Heq as ->. apply has_no_null_complete in Hc. congruence.
    + rewrite IH. apply has_no_null_complete in E. split.
      * intros [<- | [H1 H2]]; split; auto.
      * intros [[Heq | Hin] Hc]; [left; now injection Heq | right; now split].
Qed.

(** X6.  What [_read_json] hands to [pd.json_normalize] holds no object
    with a [None] among its values. *)
Theorem no_null_object_is_normalized :
  forall (J : JsonEngine) (mapping_rule : MappingRule) (references : list string)
         (json_objects : list (list (string * value))),
    json_records mapping_rule references = Ok json_objects ->
    forall d k v, In d json_objects -> In (k, v) d -> v <> PyNone.
Proof.
  intros J rule refs objs H d k v Hd Hkv. unfold json_records in H.
  apply bind_ok_inv in H. destruct H as (data & _ & H).
  apply bind_ok_inv in H. destruct H as (res & _ & H).
  apply (remove_nulls_kept _ _ H d) in Hd. destruct Hd as [_ Hc]. exact (Hc k v Hkv).
Qed.

Lemma no_null_object_is_normalized_people :
  Forall (Forall (fun kv : string * value => snd kv <> PyNone))
    [[("name"%string, Str "Ann"); ("tag"%string, Str "x")];
     [("name"%string, Str "Ann"); ("tag"%string, Str "y")]].
Proof.
  apply Forall_forall. intros d Hd. apply Forall_forall. intros [k v] Hkv.
  apply (no_null_object_is_normalized Examples.json_engine Examples.json_rule
           ["name"%string; "tag"%string] _ ltac:(vm_compute; reflexivity) d k v Hd Hkv).
Defined.

(** X7.  In a table returned by [_read_xml] every row has one cell per
    column. *)
Theorem xml_table_well_formed :
  forall (X : XmlEngine) (hash_order : SetOrder) (mapping_rule : MappingRule)
         (references : list string) (df : DataFrame),
    _read_xml hash_order mapping_rule references = Ok df ->
    well_formed df.
Proof.
  intros X h rule refs df H. unfold well_formed.
  destruct (wide_rows rule refs) as [wide | e] eqn:Hw.
  - pose proof (wide_rows_shape rule refs wide Hw) as Hshape.
    rewrite (read_xml_of_wide h rule refs wide Hw) in H.
    destruct refs as [| r refs]; [injection H as <-; constructor |].
    destruct (unique (r :: refs)); [| discriminate]. injection H as <-.
    simpl. apply Forall_forall. intros row Hrow.
    unfold Spec.build in Hrow. apply in_concat in Hrow.
    destruct Hrow as (block & Hblock & Hrow).
    apply in_map_iff in Hblock. destruct Hblock as (w & <- & Hwin).
    apply normalize_rows in Hrow. apply Forall2_length in Hrow.
    rewrite length_map in Hrow. rewrite Forall_forall in Hshape.
    destruct (Hshape w Hwin) as [Hl _]. unfold cell in *. simpl in *. lia.
  - rewrite (read_xml_raises h rule refs e Hw) in H. discriminate.
Qed.

Lemma xml_table_well_formed_people :
  well_formed (mkDF ["name"%string; "tag"%string] Examples.keep_null_rows).
Proof.
  apply (xml_table_well_formed Examples.xml_engine Mini.insertion_order Examples.xml_rule
           ["name"%string; "tag"%string]).
  vm_compute. reflexivity.
Defined.

(** X8.  In a table returned by [_read_json] every row has one cell per
    column, the appended columns included. *)
Theorem json_table_well_formed :
  forall (J : JsonEngine) (hash_order : SetOrder) (mapping_rule : MappingRule)
         (references : list string) (df : DataFrame),
    _read_json hash_order mapping_rule references = Ok df ->
    well_formed df.
Proof.
  intros J h rule refs df H. rewrite read_json_of_records in H.
  apply bind_ok_inv in H. destruct H as (objs & _ & H). injection H as <-.
  rewrite json_table_shape. cbv zeta.
  pose proof (json_normalize_well_formed objs) as Hwf. unfold well_formed in *.
  remember (json_normalize objs) as jdf eqn:Ejdf. clear Ejdf.
  cbn [rows columns]. apply Forall_forall. intros row Hrow.
  apply in_map_iff in Hrow. destruct Hrow as (r0 & <- & Hr0).
  rewrite Forall_forall in Hwf. specialize (Hwf r0 Hr0).
  unfold cell in *. rewrite !length_app, repeat_length. simpl in *. lia.
Qed.

Lemma json_table_well_formed_works :
  well_formed (mkDF ["id"%string; "creator.name"%string; "creator.age"%string;
                     "creator.city"%string]
                    [[Num "1"; Str "Ann"; Num "7"; NaN]]).
Proof.
  apply (json_table_well_formed Examples.json_engine Mini.insertion_order Examples.works_rule
           ["id"%string; "creator.city"%string]).
  vm_compute. reflexivity.
Defined.

Lemma reference_texts_texts (X : XmlEngine) (e : element) (reference : string) (c : cell) :
  reference_texts e reference = Ok c ->
  exists l, c = PyList l /\ Forall (fun v => is_text_or_null v = true) l.
Proof.
  unfold reference_texts. intros H. apply bind_ok_inv in H.
  destruct H as (rs & _ & H). injection H as <-. eexists. split; [reflexivity |].
  apply Forall_forall. intros v Hv. apply in_map_iff in Hv.
  destruct Hv as (r & <- & _). now destruct (text r).
Qed.

Lemma choices_texts (l : list value) (v : value) :
  Forall (fun v => is_text_or_null v = true) l ->
  In v (choices (extracted (PyList l))) -> is_text_or_null v = true.
Proof.
  intros Hl Hv. rewrite Forall_forall in Hl.
  destruct l as [| a [| b l]]; simpl in Hv.
  - destruct Hv as [<- | []]. reflexivity.
  - destruct Hv as [<- | []]. apply Hl. now left.
  - now apply Hl.
Qed.

(** X9.  The cells of a table returned by [_read_xml] are texts, [None]
    (an element without text) or the missing value: no list is left. *)
Theorem xml_cells_are_texts :
  forall (X : XmlEngine) (hash_order : SetOrder) (mapping_rule : MappingRule)
         (references : list string) (df : DataFrame),
    _read_xml hash_order mapping_rule references = Ok df ->
    Forall (Forall (fun c => is_text_or_null c = true)) (rows df).
Proof.
  intros X h rule refs df H.
  destruct (wide_rows rule refs) as [wide | e] eqn:Hw.
  - rewrite (read_xml_of_wide h rule refs wide Hw) in H.
    destruct refs as [| r refs]; [injection H as <-; constructor |].
    destruct (unique (r :: refs)); [| discriminate]. injection H as <-.
    simpl. apply Forall_forall. intros row Hrow.
    unfold Spec.build in Hrow. apply in_concat in Hrow.
    destruct Hrow as (block & Hblock & Hrow).
    apply in_map_iff in Hblock. destruct Hblock as (w & <- & Hwin).
    apply normalize_rows in Hrow.
    assert (Hcells : Forall (fun c => exists l, c = PyList l /\
                                      Forall (fun v => is_text_or_null v = true) l) w).
    { unfold wide_rows in Hw.
      apply bind_ok_inv in Hw. destruct Hw as (root & _ & Hw).
      apply bind_ok_inv in Hw. destruct Hw as (items & _ & Hw).
      apply mapM_Forall2 in Hw.
      destruct (Forall2_In_r _ _ _ _ Hw Hwin) as (item & _ & Hitem).
      destruct item as [el | s]; [| discriminate].
      unfold record_texts in Hitem. apply mapM_Forall2 in Hitem. clear - Hitem.
      induction Hitem as [| r' c rs w Hrc _ IH]; constructor; [| exact IH].
      eapply reference_texts_texts; eauto. }
    clear - Hrow Hcells. remember (map extracted w) as evs eqn:E. revert w E Hcells.
    induction Hrow as [| ev v evs row Hv _ IH]; intros w E Hcells; [constructor |].
    destruct w as [| c w]; [discriminate |]. injection E as -> ->.
    inversion Hcells as [| c' w' (l & -> & Hl) Hrest]; subst.
    constructor; [eapply choices_texts; eauto | eapply IH; eauto].
  - rewrite (read_xml_raises h rule refs e Hw) in H. discriminate.
Qed.

Lemma xml_cells_are_texts_people :
  Forall (Forall (fun c => is_text_or_null c = true)) Examples.keep_null_rows.
Proof.
  apply (xml_cells_are_texts Examples.xml_engine Mini.insertion_order Examples.xml_rule
           ["name"%string; "tag"%string]
           (mkDF ["name"%string; "tag"%string] Examples.keep_null_rows)).
  vm_compute. reflexivity.
Defined.




(** X11.  In [_read_xml] the lines between the construction of the frame
    and the explosion change nothing: no reference is missing from the
    labels, and [dropna] finds no missing value in cells that are lists. *)
Theorem xml_frame_unchanged_before_explode :
  forall (X : XmlEngine) (hash_order : SetOrder) (mapping_rule : MappingRule)
         (references : list string) (wide : list (list cell)) (xml_df : DataFrame),
    wide_rows mapping_rule references = Ok wide ->
    from_records wide references = Ok xml_df ->
    set_difference hash_order references (columns xml_df) = [] /\
    dropna (setitem_list xml_df
              (set_difference hash_order references (columns xml_df)) NaN)
    = xml_df.
Proof.
  intros X h rule refs wide df Hw Hdf.
  pose proof (wide_rows_shape rule refs wide Hw) as Hshape.
  unfold from_records in Hdf.
  destruct (forallb (fun r => length r =? length refs) wide); [| discriminate].
  destruct refs as [| r refs]; injection Hdf as <-; simpl columns;
    rewrite set_difference_self; (split; [reflexivity |]).
  - reflexivity.
  - unfold setitem_list. simpl fold_left. apply dropna_lists.
    eapply Forall_impl; [| exact Hshape]. intros w [_ H]. exact H.
Qed.

Lemma xml_frame_unchanged_before_explode_people :
  set_difference Mini.reversed_order ["name"%string; "tag"%string]
    ["name"%string; "tag"%string] = [] /\
  dropna (setitem_list
            (mkDF ["name"%string; "tag"%string]
                  [[PyList [Str "Ann"]; PyList [Str "x"; Str "y"]];
                   [PyList [Str "Bob"]; PyList []]])
            (set_difference Mini.reversed_order ["name"%string; "tag"%string]
               ["name"%string; "tag"%string]) NaN)
  = mkDF ["name"%string; "tag"%string]
         [[PyList [Str "Ann"]; PyList [Str "x"; Str "y"]];
          [PyList [Str "Bob"]; PyList []]].
Proof.
  apply (xml_frame_unchanged_before_explode Examples.xml_engine Mini.reversed_order
           Examples.xml_rule ["name"%string; "tag"%string]
           [[PyList [Str "Ann"]; PyList [Str "x"; Str "y"]];
            [PyList [Str "Bob"]; PyList []]]
           (mkDF ["name"%string; "tag"%string]
                 [[PyList [Str "Ann"]; PyList [Str "x"; Str "y"]];
                  [PyList [Str "Bob"]; PyList []]])).
  - vm_compute. reflexivity.
  - vm_compute. reflexivity.
Defined.

Lemma add_keys_NoDup (r : list (string * value)) :
  forall acc : list string,
    NoDup acc ->
    NoDup (fold_left (fun acc' kv => if mem (fst kv) acc' then acc' else acc' ++ [fst kv]) r acc).
Proof.
  induction r as [| [k v] r IH]; intros acc Hacc; simpl; [assumption |].
  apply IH. destruct (mem k acc) eqn:E; [assumption |].
  apply mem_false in E. apply NoDup_app; [assumption | repeat constructor; intros [] |].
  intros a Ha [<- | []]. contradiction.
Qed.

Lemma union_keys_NoDup (records : list (list (string * value))) :
  NoDup (union_keys records).
Proof.
  unfold union_keys.
  assert (G : forall acc, NoDup acc ->
             NoDup (fold_left
                      (fun acc r =>
                         fold_left (fun acc' kv => if mem (fst kv) acc' then acc'
                                                   else acc' ++ [fst kv]) r acc)
                      records acc)).
  { induction records as [| r records IH]; intros acc Hacc; simpl; [assumption |].
    apply IH. now apply add_keys_NoDup. }
  apply G. constructor.
Qed.

(** X12.  The columns of a table returned by [_read_json] are pairwise
    distinct, also when a reference is requested more than once. *)
Theorem json_columns_distinct :
  forall (J : JsonEngine) (hash_order : SetOrder) (mapping_rule : MappingRule)
         (references : list string) (df : DataFrame),
    _read_json hash_order mapping_rule references = Ok df ->
    NoDup (columns df).
Proof.
  intros J h rule refs df H. rewrite read_json_of_records in H.
  apply bind_ok_inv in H. destruct H as (objs & _ & H). injection H as <-.
  rewrite json_table_shape. cbn [columns]. apply NoDup_app.
  - apply union_keys_NoDup.
  - apply set_difference_NoDup.
  - intros a Ha Hm. apply set_difference_In in Hm. tauto.
Qed.

Lemma json_columns_distinct_people :
  NoDup ["name"%string; "tag"%string].
Proof.
  apply (json_columns_distinct Examples.json_engine Mini.insertion_order Examples.json_rule
           ["name"%string; "tag"%string; "name"%string]
           (mkDF ["name"%string; "tag"%string] Examples.drop_incomplete_rows)).
  vm_compute. reflexivity.
Defined.

(** X13.  When the iterator selects something that is not an element (a
    text, an attribute value) and references are requested, [_read_xml]
    returns no table: the item has no [findall]. *)
Theorem non_element_selection_fails :
  forall (X : XmlEngine) (hash_order : SetOrder) (mapping_rule : MappingRule)
         (references : list string) (root : element) (records : list (xitem element))
         (s : string),
    references <> [] ->
    ET_parse (data_source mapping_rule) = Ok root ->
    iter_select root (iterator mapping_rule) = Ok records ->
    In (XAtom s) records ->
    is_ok (_read_xml hash_order mapping_rule references) = false.
Proof.
  intros X h rule refs root records s Hne Hroot Hsel Hin.
  assert (Hitem : exists err, record_texts refs (XAtom s) = Raise err).
  { destruct refs; [contradiction | eexists; reflexivity]. }
  destruct Hitem as (err & Herr).
  destruct (mapM_raises (record_texts refs) records (XAtom s) err Hin Herr) as (e & He).
  rewrite (read_xml_raises h rule refs e); [reflexivity |].
  unfold wide_rows. rewrite Hroot. simpl. rewrite Hsel. simpl. exact He.
Qed.

Lemma non_element_selection_fails_names :
  is_ok (@_read_xml TextSelection.engine Mini.insertion_order TextSelection.names_rule
           ["first"%string]) = false.
Proof.
  apply (non_element_selection_fails TextSelection.engine Mini.insertion_order
           TextSelection.names_rule ["first"%string] Examples.people_xml
           [XAtom "Ann"%string; XAtom "Bob"%string] "Bob"%string).
  - discriminate.
  - reflexivity.
  - vm_compute. reflexivity.
  - right. left. reflexivity.
Defined.

Lemma mapM_first_raise {A B : Type} (f : A -> result B) (pre : list A) (x : A)
      (post : list A) (err : exn) :
  (forall y, In y pre -> exists b, f y = Ok b) ->
  f x = Raise err ->
  mapM f (pre ++ x :: post) = Raise err.
Proof.
  induction pre as [| y pre IH]; intros Hpre Hx; simpl.
  - now rewrite Hx.
  - destruct (Hpre y (or_introl eq_refl)) as (b & ->). simpl.
    rewrite IH; [reflexivity | | assumption].
    intros z Hz. apply Hpre. now right.
Qed.

(** X14.  The exception of [_read_xml] is the one of the first reference
    that [findall] rejects on the first selected element: the references
    before it have been evaluated, those after it and the other records have
    not. *)
Theorem first_rejected_reference_raises :
  forall (X : XmlEngine) (hash_order : SetOrder) (mapping_rule : MappingRule)
         (before : list string) (R : string) (after : list string)
         (root e : element) (records : list (xitem element)) (err : exn),
    ET_parse (data_source mapping_rule) = Ok root ->
    iter_select root (iterator mapping_rule) = Ok (XElem e :: records) ->
    (forall r, In r before -> exists rs, findall e r = Ok rs) ->
    findall e R = Raise err ->
    _read_xml hash_order mapping_rule (before ++ R :: after) = Raise err.
Proof.
  intros X h rule before R after root e records err Hroot Hsel Hbefore HR.
  assert (Hrec : record_texts (before ++ R :: after) (XElem e) = Raise err).
  { unfold record_texts. apply mapM_first_raise.
    - intros r Hr. destruct (Hbefore r Hr) as (rs & Hrs).
      unfold reference_texts. rewrite Hrs. simpl. eexists. reflexivity.
    - unfold reference_texts. now rewrite HR. }
  apply read_xml_raises. unfold wide_rows. rewrite Hroot. cbn [bind]. rewrite Hsel.
  cbn [bind mapM]. now rewrite Hrec.
Qed.

Lemma first_rejected_reference_raises_people :
  @_read_xml Examples.xml_engine Mini.insertion_order Examples.xml_rule
    (["name"%string] ++ "/tag"%string :: ["/name"%string])
  = Raise (SyntaxError "cannot use absolute path on element").
Proof.
  apply (first_rejected_reference_raises Examples.xml_engine Mini.insertion_order
           Examples.xml_rule ["name"%string] "/tag"%string ["/name"%string]
           Examples.people_xml
           (Mini.Node "item" None
              [Mini.Node "name" (Some "Ann"%string) [];
               Mini.Node "tag" (Some "x"%string) [];
               Mini.Node "tag" (Some "y"%string) []])
           [XElem (Mini.Node "item" None [Mini.Node "name" (Some "Bob"%string) []])]).
  - reflexivity.
  - vm_compute. reflexivity.
  - intros r [<- | []]. eexists. vm_compute. reflexivity.
  - reflexivity.
Defined.

(** X15.  The columns that [_read_json] appends for the missing references
    leave the columns of the normalised frame as they are: under each of
    its labels the table holds the cells of that frame. *)
Theorem json_data_columns_kept :
  forall (J : JsonEngine) (hash_order : SetOrder) (mapping_rule : MappingRule)
         (references : list string) (json_objects : list (list (string * value)))
         (key : string),
    json_records mapping_rule references = Ok json_objects ->
    In key (columns (json_normalize json_objects)) ->
    exists df,
      _read_json hash_order mapping_rule references = Ok df /\
      column_values df key = column_values (json_normalize json_objects) key.
Proof.
  intros J h rule refs objs key Hrec Hkey.
  rewrite read_json_of_records, Hrec. simpl bind.
  eexists. split; [reflexivity |]. rewrite json_table_shape. cbv zeta.
  pose proof (json_normalize_well_formed objs) as Hwf. unfold well_formed in Hwf.
  remember (json_normalize objs) as jdf eqn:Ejdf. clear Ejdf.
  rewrite column_values_padded by assumption.
  destruct (index_of_In key (columns jdf) Hkey) as (i & Hi).
  rewrite Hi. unfold column_values. now rewrite Hi.
Qed.

Lemma json_data_columns_kept_works :
  exists df,
    @_read_json Examples.json_engine Mini.reversed_order Examples.works_rule
      ["id"%string; "creator.city"%string; "creator.zip"%string] = Ok df /\
    column_values df "creator.name"
    = column_values
        (json_normalize
           [[("id"%string, Num "1");
             ("creator"%string,
              PyDict [("name"%string, Str "Ann"); ("age"%string, Num "7")])]])
        "creator.name".
Proof.
  apply (json_data_columns_kept Examples.json_engine Mini.reversed_order Examples.works_rule
           ["id"%string; "creator.city"%string; "creator.zip"%string]).
  - vm_compute. reflexivity.
  - vm_compute. right. left. reflexivity.
Defined.
